(** * CocosNet demo preprocessing and accuracy-checker evaluator

    A shallow embedding of
      - demos/python_demos/cocosnet_demo/preprocessing.py
      - tools/accuracy_checker/accuracy_checker/evaluators/custom_evaluators/
        cocosnet_evaluator.py
    Python exceptions are an explicit result type, numpy arrays are a shape
    together with row-major data, dicts are finite maps, and the collaborators
    the code only calls (OpenCV, the inference engine, readers, preprocessing
    executors, ...) are section variables. *)

From Stdlib Require Import ZArith QArith Lia PrimFloat Uint63.
From stdpp Require Import base tactics option list list_numbers strings gmap
  functions.

Local Open Scope Z_scope.

(** ** Exceptions and the error monad *)

Inductive exn : Type :=
  | IndexError
  | KeyError (key : string)
  | ValueError
  | AxisError
  | TypeError
  | AttributeError
  | ConfigError (msg : string)
  | RecursionError
  | External (what : string).

Inductive result (A : Type) : Type :=
  | Ok (a : A)
  | Raise (e : exn).
Arguments Ok {A} a.
Arguments Raise {A} e.

Global Instance result_ret : MRet result := λ A a, Ok a.
Global Instance result_bind : MBind result :=
  λ A B f m, match m with Ok a => f a | Raise e => Raise e end.
Global Instance result_fmap : FMap result :=
  λ A B f m, match m with Ok a => Ok (f a) | Raise e => Raise e end.

(** [for x in l: s = body s x], stopping at the first exception. *)
Fixpoint foldM {A S : Type} (body : S → A → result S) (l : list A) (s : S)
  : result S :=
  match l with
  | [] => Ok s
  | x :: l' => s' ← body s x; foldM body l' s'
  end.

(** Python's [range(n)]. *)
Definition range (n : Z) : list Z := seqZ 0 n.

(** ** numpy arrays: a shape and row-major data *)

Record ndarray (A : Type) : Type := NdArray { shape : list Z; flat : list A }.
Arguments NdArray {A} shape flat.
Arguments shape {A} _.
Arguments flat {A} _.

Definition size_of (sh : list Z) : Z := foldr Z.mul 1 sh.

(** The invariant every numpy array satisfies. *)
Definition wf_ndarray {A} (a : ndarray A) : Prop :=
  Forall (λ d, 0 ≤ d) (shape a) ∧ Z.of_nat (length (flat a)) = size_of (shape a).

(** [np.zeros(sh)] *)
Definition np_zeros (sh : list Z) : ndarray Z :=
  NdArray sh (replicate (Z.to_nat (size_of sh)) 0).

(** Index normalisation along an axis of extent [n]: negative indices count
    from the end, anything outside [-n, n) is an [IndexError]. *)
Definition norm_index (n k : Z) : result Z :=
  if decide (0 ≤ k < n) then Ok k
  else if decide (- n ≤ k < 0) then Ok (k + n)
  else Raise IndexError.

Definition offset2 (W i j : Z) : Z := i * W + j.
Definition offset4 (C H W b c i j : Z) : Z := ((b * C + c) * H + i) * W + j.

(** [a[i][j]] on a 2-D array *)
Definition getitem2 {A} (a : ndarray A) (i j : Z) : result A :=
  match shape a with
  | [H; W] =>
      i' ← norm_index H i;
      j' ← norm_index W j;
      match flat a !! Z.to_nat (offset2 W i' j') with
      | Some v => Ok v
      | None => Raise IndexError
      end
  | _ => Raise IndexError
  end.

(** [a[b][c][i][j]] on a 4-D array *)
Definition getitem4 {A} (a : ndarray A) (b c i j : Z) : result A :=
  match shape a with
  | [B; C; H; W] =>
      b' ← norm_index B b;
      c' ← norm_index C c;
      i' ← norm_index H i;
      j' ← norm_index W j;
      match flat a !! Z.to_nat (offset4 C H W b' c' i' j') with
      | Some v => Ok v
      | None => Raise IndexError
      end
  | _ => Raise IndexError
  end.

(** [a[b][c][i][j] = v] on a 4-D array *)
Definition setitem4 {A} (a : ndarray A) (b c i j : Z) (v : A)
  : result (ndarray A) :=
  match shape a with
  | [B; C; H; W] =>
      b' ← norm_index B b;
      c' ← norm_index C c;
      i' ← norm_index H i;
      j' ← norm_index W j;
      Ok (NdArray (shape a)
            (<[Z.to_nat (offset4 C H W b' c' i' j') := v]> (flat a)))
  | _ => Raise IndexError
  end.

(** [np.transpose(a, (2, 0, 1))] on a 3-D array: [out[c][i][j] = a[i][j][c]]. *)
Definition np_transpose_201 {A} (a : ndarray A) : result (ndarray A) :=
  match shape a with
  | [H; W; C] =>
      Ok (NdArray [C; H; W]
            (c ← range C; i ← range H; j ← range W;
             option_list (flat a !! Z.to_nat ((i * W + j) * C + c))))
  | _ => Raise ValueError
  end.

(** [take]/[drop] in blocks: [n] times, [ka] entries of [xa] followed by [kb]
    entries of [xb]. *)
Fixpoint interleave {A} (n ka kb : nat) (xa xb : list A) : list A :=
  match n with
  | O => []
  | S n' =>
      take ka xa ++ take kb xb ++ interleave n' ka kb (drop ka xa) (drop kb xb)
  end.

(** [np.concatenate((a, b), axis=1)], with numpy's checks in numpy's order:
    a zero-dimensional first array, the axis against the first array's rank,
    equal ranks, and equal extents on every axis but the concatenation one. *)
Definition np_concatenate_axis1 {A} (a b : ndarray A) : result (ndarray A) :=
  match shape a with
  | [] => Raise ValueError
  | [_] => Raise AxisError
  | d0 :: d1 :: rest =>
      match shape b with
      | e0 :: e1 :: rest' =>
          if decide (d0 = e0 ∧ rest = rest') then
            Ok (NdArray (d0 :: (d1 + e1) :: rest)
                  (interleave (Z.to_nat d0)
                     (Z.to_nat (d1 * size_of rest)) (Z.to_nat (e1 * size_of rest))
                     (flat a) (flat b)))
          else Raise ValueError
      | _ => Raise ValueError
      end
  end.

(** ** preprocessing.py *)

Module Preprocessing.

(** The loop nest of [scatter], over any output array. *)
Definition scatter_into (out : ndarray Z) (source : ndarray Z)
  : result (ndarray Z) :=
  match shape source with
  | [h; w] =>
      foldM (λ out i,
        foldM (λ out j,
          lbl ← getitem2 source i j;
          setitem4 out 0 lbl i j 1) (range w) out) (range h) out
  | _ => Raise ValueError
  end.

(** [def scatter(source)] *)
Definition scatter (source : ndarray Z) : result (ndarray Z) :=
  let out := np_zeros [1; 151; 256; 256] in
  scatter_into out source.

(** [.astype(np.int)]: the entries are the floats 0.0 and 1.0, carried here
    as integers already. *)
Definition astype_int (a : ndarray Z) : ndarray Z := a.

(** [def preprocess_with_semantics(semantic_mask)].  [cv2_resize_nearest] is
    [cv2.resize(_, dsize=(256, 256), interpolation=cv2.INTER_NEAREST)]. *)
Definition preprocess_with_semantics
    (cv2_resize_nearest : ndarray Z → result (ndarray Z))
    (semantic_mask : ndarray Z) : result (ndarray Z) :=
  semantic_mask ← cv2_resize_nearest semantic_mask;
  semantic_mask ← astype_int <$> scatter semantic_mask;
  Ok semantic_mask.

(** What the code relies on from OpenCV's nearest-neighbour resize to
    256x256: a non-empty 2-D grid comes back as a 256x256 grid whose entries
    are entries of the source. *)
Definition nearest_resize_256 (resize : ndarray Z → result (ndarray Z)) : Prop :=
  ∀ (src : ndarray Z) (h w : Z),
    shape src = [h; w] → 0 < h → 0 < w → wf_ndarray src →
    ∃ dst, resize src = Ok dst ∧ shape dst = [256; 256] ∧ wf_ndarray dst ∧
           ∀ v, v ∈ flat dst → v ∈ flat src.

(** A nearest-neighbour resize: destination pixel [(i, j)] reads source pixel
    [(min(i*h/dh, h-1), min(j*w/dw, w-1))]. *)
Definition resize_nearest (dh dw : Z) (src : ndarray Z) : result (ndarray Z) :=
  match shape src with
  | [h; w] =>
      if decide (0 < h ∧ 0 < w) then
        Ok (NdArray [dh; dw]
              (i ← range dh; j ← range dw;
               [default 0 (flat src !!
                  Z.to_nat (offset2 w ((i * h / dh) `min` (h - 1))
                                      ((j * w / dw) `min` (w - 1))))]))
      else Raise (External "cv2.error")
  | _ => Raise (External "cv2.error")
  end.

(** [out.sum(axis=1)[0][i][j]]: the sum over the class axis at one pixel. *)
Definition class_sum (out : ndarray Z) (i j : Z) : result Z :=
  match shape out with
  | [_; C; _; _] =>
      foldM (λ acc c, v ← getitem4 out 0 c i j; Ok (acc + v)) (range C) 0
  | _ => Raise IndexError
  end.

(** A Python int or a uint8 entry as a float64. *)
Definition float_of_int (v : Z) : float :=
  if decide (v < 0) then PrimFloat.opp (PrimFloat.of_uint63 (Uint63.of_Z (- v)))
  else PrimFloat.of_uint63 (Uint63.of_Z v).

(** [np.subtract(x, mean)]: the uint8 image is promoted to float64. *)
Definition np_subtract (x : ndarray Z) (mean : float) : ndarray float :=
  NdArray (shape x) ((λ v, PrimFloat.sub (float_of_int v) mean) <$> flat x).

(** [np.divide(x, scale)] *)
Definition np_divide (x : ndarray float) (scale : float) : ndarray float :=
  NdArray (shape x) ((λ v, PrimFloat.div v scale) <$> flat x).

(** [def normalization(x, mean=127.5, scale=127.5)] *)
Definition normalization (x : ndarray Z) (mean scale : float) : ndarray float :=
  let x := np_subtract x mean in
  let x := np_divide x scale in
  x.

(** [def preprocess_with_images(image)].  [cv2_cvtColor] is
    [cv2.cvtColor(_, cv2.COLOR_BGR2RGB)] and [cv2_resize_cubic] is
    [cv2.resize(_, dsize=(256, 256), interpolation=cv2.INTER_CUBIC)]. *)
Definition preprocess_with_images
    (cv2_cvtColor cv2_resize_cubic : ndarray Z → result (ndarray Z))
    (image : ndarray Z) : result (ndarray float) :=
  image ← cv2_cvtColor image;
  image ← cv2_resize_cubic image;
  image ← np_transpose_201 image;
  let image := normalization image 127.5%float 127.5%float in
  Ok image.

(** The same affine map over the rationals. *)
Definition normalizationQ (x mean scale : Q) : Q := ((x - mean) / scale)%Q.

(** The inverse affine map the specification calls denormalization,
    [y * 127.5 + 127.5], over float64 and over the rationals. *)
Definition denormalize (y : float) : float :=
  PrimFloat.add (PrimFloat.mul y 127.5%float) 127.5%float.
Definition denormalizeQ (y : Q) : Q := (y * (255 # 2) + (255 # 2))%Q.

End Preprocessing.

(** ** cocosnet_evaluator.py *)

(** Configuration values, as read from the YAML configuration. *)
#[warnings="-register-all"]
Inductive pyval : Type :=
  | PyNone
  | PyBool (b : bool)
  | PyInt (z : Z)
  | PyStr (s : string)
  | PyList (l : list pyval)
  | PyDict (d : gmap string pyval).

(** [d[key]] on a dict *)
Definition dict_getitem {V} (d : gmap string V) (key : string) : result V :=
  match d !! key with
  | Some v => Ok v
  | None => Raise (KeyError key)
  end.

(** [l[0]] on a list *)
Definition list_getitem0 {V} (l : list V) : result V :=
  match l with
  | v :: _ => Ok v
  | [] => Raise IndexError
  end.

(** [v[key]], [v[0]] and [v.get(key, default)] on a configuration value *)
Definition py_getitem (v : pyval) (key : string) : result pyval :=
  match v with
  | PyDict d => dict_getitem d key
  | _ => Raise TypeError
  end.

Definition py_getitem0 (v : pyval) : result pyval :=
  match v with
  | PyList l => list_getitem0 l
  | PyDict _ => Raise (KeyError "0")
  | PyStr s =>
      match s with
      | String c _ => Ok (PyStr (String c EmptyString))
      | EmptyString => Raise IndexError
      end
  | _ => Raise TypeError
  end.

Definition py_get (v : pyval) (key : string) (dflt : pyval) : result pyval :=
  match v with
  | PyDict d => Ok (default dflt (d !! key))
  | _ => Raise AttributeError
  end.

(** *** Strings: [needle in s] and [s.replace(old, new)] *)

(** [needle in s] *)
Fixpoint py_contains (needle s : string) : bool :=
  String.prefix needle s ||
  match s with
  | EmptyString => false
  | String _ s' => py_contains needle s'
  end.

(** [s.replace(old, new)] for a non-empty [old]: scan left to right; at an
    occurrence of [old] emit [new] and skip the occurrence.  [skip] counts the
    characters of the current occurrence still to be passed over. *)
Fixpoint py_replace_from (old new : string) (skip : nat) (s : string) : string :=
  match s with
  | EmptyString => EmptyString
  | String c s' =>
      match skip with
      | S k => py_replace_from old new k s'
      | O =>
          if String.prefix old s
          then new +:+ py_replace_from old new (String.length old - 1) s'
          else String c (py_replace_from old new 0 s')
      end
  end.

Definition py_replace (old new s : string) : string :=
  py_replace_from old new 0 s.

(** [def automatic_model_search(network_info)].  [str_Path] is
    [str(Path(_))] and [get_path] is [str(get_path(_))] of the package's
    utilities. *)
Definition automatic_model_search
    (str_Path : pyval → result string) (get_path : pyval → result string)
    (network_info : pyval) : result (string * string) :=
  model ← py_getitem network_info "model" ≫= str_Path;
  weights ← py_get network_info "weights" (PyStr model) ≫= get_path;
  let weights :=
    if py_contains ".xml" weights then py_replace ".xml" ".bin" weights
    else weights in
  Ok (model, weights).

(** *** The two networks and [CocosnetModel] *)

Section Model.
Context {T Inp Pred : Type}.

(** [class CorrespondenceNetwork]: the input feeder, the executable network
    and the two keys chosen by [set_input_and_output]. *)
Record CorrespondenceNetwork : Type := {
  input_feeder_fill_inputs : Inp → result (list (gmap string (ndarray T)));
  corr_exec_network_infer :
    gmap string (ndarray T) → result (gmap string (ndarray T));
  key_of_warped_reference : string;
  key_of_input_semantics : string }.

(** [class GeneratorNetwork] *)
Record GeneratorNetwork : Type := {
  input_blob : string;
  gen_exec_network_infer : gmap string (ndarray T) → result Pred }.

(** [class CocosnetModel] *)
Record CocosnetModel : Type := {
  correspondence : CorrespondenceNetwork;
  generator : GeneratorNetwork }.

(** [CorrespondenceNetwork.fit_to_input] *)
Definition corr_fit_to_input (self : CorrespondenceNetwork) (input_data : Inp)
  : result (list (gmap string (ndarray T))) :=
  input_feeder_fill_inputs self input_data.

(** [CorrespondenceNetwork.predict] *)
Definition corr_predict (self : CorrespondenceNetwork)
    (input_data : gmap string (ndarray T)) : result (gmap string (ndarray T)) :=
  corr_exec_network_infer self input_data.

(** [GeneratorNetwork.fit_to_input] *)
Definition gen_fit_to_input (self : GeneratorNetwork) (input_data : ndarray T)
  : gmap string (ndarray T) :=
  {[ input_blob self := input_data ]}.

(** [GeneratorNetwork.predict] *)
Definition gen_predict (self : GeneratorNetwork) (input_data : ndarray T)
  : result Pred :=
  gen_exec_network_infer self (gen_fit_to_input self input_data).

(** The body of the loop of [CocosnetModel.predict]. *)
Definition predict_body (self : CocosnetModel) (results : list Pred) (inp : Inp)
  : result (list Pred) :=
  inp ← corr_fit_to_input (correspondence self) inp;
  inp0 ← list_getitem0 inp;
  corr_out ← corr_predict (correspondence self) inp0;
  warped ← dict_getitem corr_out (key_of_warped_reference (correspondence self));
  inp0 ← list_getitem0 inp;
  semantics ← dict_getitem inp0 (key_of_input_semantics (correspondence self));
  gen_input ← np_concatenate_axis1 warped semantics;
  result ← gen_predict (generator self) gen_input;
  Ok (results ++ [result]).

(** [CocosnetModel.predict] *)
Definition predict (self : CocosnetModel) (inputs : list Inp)
  : result (list Pred) :=
  foldM (predict_body self) inputs [].

End Model.

Arguments CorrespondenceNetwork : clear implicits.
Arguments GeneratorNetwork : clear implicits.
Arguments CocosnetModel : clear implicits.

(** *** [CocosnetEvaluator] *)

(** Objects the evaluator refers to live in a heap and are named by
    references; the evaluator stores references, as the Python object does. *)
Abbreviation ref := nat.

Record heap (Obj : Type) : Type := Heap { next_ref : ref; obj_at : ref → Obj }.
Arguments Heap {Obj} next_ref obj_at.
Arguments next_ref {Obj} _.
Arguments obj_at {Obj} _ _.

(** Constructing an object stores it at a fresh reference. *)
Definition alloc {Obj} (o : Obj) (h : heap Obj) : ref * heap Obj :=
  (next_ref h, Heap (S (next_ref h)) (<[next_ref h := o]> (obj_at h))).

Definition new {Obj} (constructed : result Obj) (h : heap Obj)
  : result (ref * heap Obj) :=
  o ← constructed; Ok (alloc o h).

(** Calling a method that mutates its receiver. *)
Definition call {Obj} (method : Obj → result Obj) (r : ref) (h : heap Obj)
  : result (heap Obj) :=
  o ← method (obj_at h r);
  Ok (Heap (next_ref h) (<[r := o]> (obj_at h))).

(** [class DataRepresentation] of the data readers *)
Record DataRepresentation (P Meta Ident : Type) : Type := {
  data : P;
  metadata : Meta;
  identifier : Ident }.
Arguments data {P Meta Ident} _.
Arguments metadata {P Meta Ident} _.
Arguments identifier {P Meta Ident} _.

(** Where a reader takes its data from: the configured [data_source] or the
    dataset's annotation. *)
Inductive data_source (Obj : Type) : Type :=
  | ConfiguredSource (v : pyval)
  | AnnotationOf (dataset : Obj).
Arguments ConfiguredSource {Obj} v.
Arguments AnnotationOf {Obj} dataset.

(** One call of [preprocessor.process] inside [_get_batch_input]: the
    receiver, the position [(i, index_of_input)] and the argument. *)
Record process_call (Data : Type) : Type := ProcessCall {
  receiver : ref;
  sample_index : nat;
  channel_index : nat;
  argument : Data }.
Arguments ProcessCall {Data} receiver sample_index channel_index argument.

Section Evaluator.
Context {Obj Ann Ident Data Meta Pred Metric Presenter : Type}.

(** The package's classes and functions the evaluator calls. *)
Record Collaborators : Type := {
  (* constructors used by [from_configs] *)
  Dataset_new : pyval → result Obj;
  REQUIRES_ANNOTATIONS : pyval → bool;
  BaseReader_provide : pyval → data_source Obj → pyval → result Obj;
  PreprocessingExecutor_new : pyval → pyval → Obj → pyval → result Obj;
  create_launcher : pyval → result Obj;
  CocosnetModel_new : pyval → Obj → result Obj;
  PostprocessingExecutor_new : pyval → pyval → Obj → result Obj;
  MetricsExecutor_new : pyval → Obj → result Obj;
  (* methods *)
  annotation_identifier : Ann → Ident;
  reader_call : Obj → Ident → result (DataRepresentation (list Data) Meta Ident);
  set_annotation_metadata :
    Obj → Ann → DataRepresentation (list Data) Meta Ident → Obj → result Ann;
  DataRepresentation_new : Data → DataRepresentation Data Meta Ident;
  preprocessor_process :
    Obj → list (DataRepresentation Data Meta Ident) → list Ann →
    result (list (DataRepresentation Data Meta Ident));
  extract_image_representations :
    list (DataRepresentation (list Data) Meta Ident) →
    list (list Data) * list Meta;
  metric_executor_reset : Obj → result Obj;
  iterate_metrics :
    Obj → list Ann → list Pred → result (list (Presenter * Metric));
  write_result : Presenter → Metric → bool → result unit;
  has_processors : Obj → bool;
  dataset_reset : bool → Obj → result Obj;
  reader_reset : Obj → result Obj }.

Context (env : Collaborators).

(** The attributes set by [__init__]. *)
Record CocosnetEvaluator : Type := {
  launcher : ref;
  reader : ref;
  preprocessor_mask : ref;
  preprocessor_image : ref;
  postprocessor : ref;
  dataset : ref;
  metric_executor : ref;
  model : ref;
  _annotations : list Ann;
  _predictions : list Pred;
  _metrics_results : list Metric }.

(** [__init__] *)
Definition init (launcher reader preprocessor_mask preprocessor_image
    postprocessor dataset metric model : ref) : CocosnetEvaluator :=
  {| launcher := launcher; reader := reader;
     preprocessor_mask := preprocessor_mask;
     preprocessor_image := preprocessor_image;
     postprocessor := postprocessor; dataset := dataset;
     metric_executor := metric; model := model;
     _annotations := []; _predictions := []; _metrics_results := [] |}.

(** Lines 61-67 of [from_configs]: the reader's type and configuration. *)
Definition resolve_reader (data_reader_config : pyval) : result (pyval * pyval) :=
  match data_reader_config with
  | PyStr _ => Ok (data_reader_config, PyNone)
  | PyDict d =>
      data_reader_type ← dict_getitem d "type";
      Ok (data_reader_type, data_reader_config)
  | _ => Raise (ConfigError "reader should be dict or string")
  end.

(** Lines 68-91 of [from_configs]: everything after the reader's type is
    known. *)
Definition from_configs_finish (h : heap Obj)
    (network_info launcher_config dataset_config dataset_name data_source : pyval)
    (dataset : ref) (data_reader_type data_reader_config : pyval)
  : result (CocosnetEvaluator * heap Obj) :=
  let data_source :=
    if REQUIRES_ANNOTATIONS env data_reader_type
    then AnnotationOf (obj_at h dataset)
    else ConfiguredSource data_source in
  '(data_reader, h) ←
    new (BaseReader_provide env data_reader_type data_source data_reader_config) h;
  framework ← py_getitem launcher_config "framework";
  enable_ie_preprocessing ←
    match framework with
    | PyStr "dlsdk" => py_get dataset_config "_ie_preprocessing" (PyBool false)
    | _ => Ok (PyBool false)
    end;
  preprocessing_mask ← py_get dataset_config "preprocessing_mask" PyNone;
  '(preprocessor_mask, h) ←
    new (PreprocessingExecutor_new env preprocessing_mask dataset_name
           (obj_at h dataset) enable_ie_preprocessing) h;
  preprocessing_image ← py_get dataset_config "preprocessing_image" PyNone;
  '(preprocessor_image, h) ←
    new (PreprocessingExecutor_new env preprocessing_image dataset_name
           (obj_at h dataset) enable_ie_preprocessing) h;
  '(launcher, h) ← new (create_launcher env launcher_config) h;
  '(model, h) ← new (CocosnetModel_new env network_info (obj_at h launcher)) h;
  postprocessing ← py_get dataset_config "postprocessing" PyNone;
  '(postprocessor, h) ←
    new (PostprocessingExecutor_new env postprocessing dataset_name
           (obj_at h dataset)) h;
  metrics ← py_get dataset_config "metrics" (PyList []);
  '(metric_dispatcher, h) ←
    new (MetricsExecutor_new env metrics (obj_at h dataset)) h;
  Ok (init launcher data_reader preprocessor_mask preprocessor_image
        postprocessor dataset metric_dispatcher model, h).

(** [CocosnetEvaluator.from_configs] *)
Definition from_configs (h : heap Obj) (model_config : pyval)
  : result (CocosnetEvaluator * heap Obj) :=
  network_info ← py_getitem model_config "network_info";
  launcher_config ← py_getitem model_config "launchers" ≫= py_getitem0;
  dataset_config ← py_getitem model_config "datasets" ≫= py_getitem0;
  dataset_name ← py_getitem dataset_config "name";
  data_reader_config ← py_get dataset_config "reader" (PyStr "opencv_imread");
  data_source ← py_get dataset_config "data_source" PyNone;
  '(dataset, h) ← new (Dataset_new env dataset_config) h;
  '(data_reader_type, data_reader_config) ← resolve_reader data_reader_config;
  from_configs_finish h network_info launcher_config dataset_config dataset_name
    data_source dataset data_reader_type data_reader_config.

(** [_get_batch_input], with the calls of [preprocessor.process] recorded in
    the order they are made. *)
Definition process_channel (self : CocosnetEvaluator) (h : heap Obj)
    (batch_annotation : list Ann) (i : nat)
    (st : list (DataRepresentation (list Data) Meta Ident) *
          list (process_call Data))
    (index_of_input : nat)
  : result (list (DataRepresentation (list Data) Meta Ident) *
            list (process_call Data)) :=
  let '(batch_input, calls) := st in
  input ← from_option Ok (Raise IndexError) (batch_input !! i);
  let preprocessor :=
    if decide (Z.of_nat index_of_input `mod` 2 ≠ 0)
    then preprocessor_image self else preprocessor_mask self in
  x ← from_option Ok (Raise IndexError) (data input !! index_of_input);
  processed ← preprocessor_process env (obj_at h preprocessor)
                 [DataRepresentation_new env x] batch_annotation;
  first ← list_getitem0 processed;
  let input := {| data := <[index_of_input := data first]> (data input);
                  metadata := metadata input;
                  identifier := identifier input |} in
  Ok (<[i := input]> batch_input,
      calls ++ [ProcessCall preprocessor i index_of_input x]).

Definition _get_batch_input (self : CocosnetEvaluator) (h : heap Obj)
    (batch_annotation : list Ann)
  : result ((list (list (DataRepresentation (list Data) Meta Ident)) *
             list Meta * list Ident) * list Ann * list (process_call Data)) :=
  let batch_identifiers := annotation_identifier env <$> batch_annotation in
  batch_input ← mapM (reader_call env (obj_at h (reader self))) batch_identifiers;
  annotated ←
    mapM (λ '(annotation, input_data),
            set_annotation_metadata env (obj_at h (dataset self))
              annotation input_data (obj_at h (reader self)))
         (zip batch_annotation batch_input);
  let batch_annotation := annotated ++ drop (length annotated) batch_annotation in
  '(batch_input, calls) ←
    foldM (λ st i,
        input ← from_option Ok (Raise IndexError) (st.1 !! i);
        foldM (process_channel self h batch_annotation i)
              (seq 0 (length (data input))) st)
      (seq 0 (length batch_input)) (batch_input, []);
  let '(_, batch_meta) := extract_image_representations env batch_input in
  Ok (([batch_input], batch_meta, batch_identifiers), batch_annotation, calls).

(** [compute_metrics] *)
Definition compute_metrics (self : CocosnetEvaluator) (h : heap Obj)
    (print_results ignore_results_formatting : bool)
  : result (list Metric * CocosnetEvaluator) :=
  let cleared :=
    match _metrics_results self with
    | [] => self
    | _ :: _ =>
        {| launcher := launcher self; reader := reader self;
           preprocessor_mask := preprocessor_mask self;
           preprocessor_image := preprocessor_image self;
           postprocessor := postprocessor self; dataset := dataset self;
           metric_executor := metric_executor self; model := model self;
           _annotations := _annotations self;
           _predictions := _predictions self;
           _metrics_results := [] |}
    end in
  evaluated ← iterate_metrics env (obj_at h (metric_executor self))
                 (_annotations cleared) (_predictions cleared);
  results ←
    foldM (λ results '(result_presenter, evaluated_metric),
        let results := results ++ [evaluated_metric] in
        _ ← (if print_results
             then write_result env result_presenter evaluated_metric
                    ignore_results_formatting
             else Ok ());
        Ok results)
      evaluated (_metrics_results cleared);
  Ok (results,
      {| launcher := launcher self; reader := reader self;
         preprocessor_mask := preprocessor_mask self;
         preprocessor_image := preprocessor_image self;
         postprocessor := postprocessor self; dataset := dataset self;
         metric_executor := metric_executor self; model := model self;
         _annotations := _annotations self;
         _predictions := _predictions self;
         _metrics_results := results |}).

(** [copy.deepcopy] of a list of metric results *)
Definition deepcopy (l : list Metric) : list Metric := l.

(** The [metrics_results] property.  Reading [self.metrics_results] inside
    the getter is a call of the getter; [depth] is the number of Python
    frames still available before the interpreter's recursion limit. *)
Fixpoint metrics_results (depth : nat) (self : CocosnetEvaluator) (h : heap Obj)
  : result (list Metric * CocosnetEvaluator) :=
  match depth with
  | O => Raise RecursionError
  | S depth' =>
      '(guard, self) ← metrics_results depth' self h;
      self ← match guard with
             | [] => snd <$> compute_metrics self h false false
             | _ :: _ => Ok self
             end;
      let computed_metrics := deepcopy (_metrics_results self) in
      Ok (computed_metrics, self)
  end.

(** [reset] *)
Definition reset (self : CocosnetEvaluator) (h : heap Obj)
  : result (CocosnetEvaluator * heap Obj) :=
  h ← call (metric_executor_reset env) (metric_executor self) h;
  let self :=
    {| launcher := launcher self; reader := reader self;
       preprocessor_mask := preprocessor_mask self;
       preprocessor_image := preprocessor_image self;
       postprocessor := postprocessor self; dataset := dataset self;
       metric_executor := metric_executor self; model := model self;
       _annotations := []; _predictions := []; _metrics_results := [] |} in
  h ← call (dataset_reset env (has_processors env (obj_at h (postprocessor self))))
         (dataset self) h;
  h ← call (reader_reset env) (reader self) h;
  Ok (self, h).

End Evaluator.

Arguments Collaborators : clear implicits.
Arguments CocosnetEvaluator : clear implicits.

(** ** Vocabulary of the statements, and small instances to run the code on *)

Import Preprocessing.

(** The per-entry facts, as one boolean test on float64. *)
Definition byte_ok (x : Z) : bool :=
  let y := PrimFloat.div (PrimFloat.sub (float_of_int x) 127.5) 127.5 in
  PrimFloat.leb (-1) y && PrimFloat.leb y 1
  && PrimFloat.eqb (denormalize y) (float_of_int x).

(** The label stored at row [i], column [j] of a grid of width [w]. *)
Definition label_at (src : ndarray Z) (w i j : Z) : Z :=
  default 0 (flat src !! Z.to_nat (offset2 w i j)).

(** The class channel a label selects among [C] channels. *)
Definition channel_of (C v : Z) : Z := if decide (v < 0) then v + C else v.

(** The loop invariant of [scatter]: the pixels before [(i0, j0)] in
    row-major order have been written, nothing else has. *)
Definition scattered (C H W : Z) (src : ndarray Z) (w i0 j0 : Z)
    (out : ndarray Z) : Prop :=
  shape out = [1; C; H; W] ∧
  Z.of_nat (length (flat out)) = C * H * W ∧
  ∀ c i j, 0 ≤ c < C → 0 ≤ i < H → 0 ≤ j < W →
    flat out !! Z.to_nat (offset4 C H W 0 c i j) =
    Some (if bool_decide ((i < i0 ∨ (i = i0 ∧ j < j0)) ∧ j < w ∧
                          c = channel_of C (label_at src w i j))
          then 1 else 0).

(** What the specification says the prediction for one sample is: run the
    correspondence stage on the sample, concatenate its warped-reference
    output with the input-semantics tensor, run the generator stage on the
    concatenation. *)
Definition prediction_of {T Inp Pred} (self : CocosnetModel T Inp Pred)
    (inp : Inp) (result : Pred) : Prop :=
  ∃ fed inp0 corr_out warped semantics gen_input,
    corr_fit_to_input (correspondence self) inp = Ok fed ∧
    fed !! 0%nat = Some inp0 ∧
    corr_predict (correspondence self) inp0 = Ok corr_out ∧
    corr_out !! key_of_warped_reference (correspondence self) = Some warped ∧
    inp0 !! key_of_input_semantics (correspondence self) = Some semantics ∧
    np_concatenate_axis1 warped semantics = Ok gen_input ∧
    gen_predict (generator self) gen_input = Ok result.

(** A small model to run [predict] on: the correspondence stage feeds the
    sample as the input semantics and answers with a fixed one-channel
    warped reference; the generator hands its input back. *)
Definition demo_correspondence : CorrespondenceNetwork Z (ndarray Z) :=
  {| input_feeder_fill_inputs := λ inp, Ok [{[ "input_semantics" := inp ]}];
     corr_exec_network_infer := λ _, Ok {[ "warped" := NdArray [1; 1; 1; 1] [7] ]};
     key_of_warped_reference := "warped";
     key_of_input_semantics := "input_semantics" |}.

Definition demo_generator : GeneratorNetwork Z (ndarray Z) :=
  {| input_blob := "gen_input";
     gen_exec_network_infer := λ feed, dict_getitem feed "gen_input" |}.

Definition demo_model : CocosnetModel Z (ndarray Z) (ndarray Z) :=
  {| correspondence := demo_correspondence; generator := demo_generator |}.

(** The preprocessor the specification assigns to a channel index: the mask
    preprocessor at even indices, the image preprocessor at odd ones. *)
Definition preprocessor_for {Ann Pred Metric}
    (self : CocosnetEvaluator Ann Pred Metric) (index_of_input : nat) : ref :=
  if Nat.even index_of_input then preprocessor_mask self
  else preprocessor_image self.

(** The calls expected for the channels [xs] of sample [i], the first of
    them at index [k0]. *)
Definition channel_calls {Ann Pred Metric Data}
    (self : CocosnetEvaluator Ann Pred Metric) (i k0 : nat) (xs : list Data)
  : list (process_call Data) :=
  imap (λ k x, ProcessCall (preprocessor_for self (k0 + k)) i (k0 + k) x) xs.

(** [y] is what the preprocessor at [r] makes of the channel [x]. *)
Definition processed_by {Obj Ann Ident Data Meta Pred Metric Presenter}
    (env : Collaborators Obj Ann Ident Data Meta Pred Metric Presenter)
    (h : heap Obj) (batch_annotation : list Ann) (r : ref) (x y : Data) : Prop :=
  ∃ processed first,
    preprocessor_process env (obj_at h r) [DataRepresentation_new env x]
      batch_annotation = Ok processed ∧
    processed !! 0%nat = Some first ∧ y = data first.

(** A small set of collaborators to run the evaluator on: an object's state
    is a number, the reader yields three channels per identifier, the
    preprocessor in state 1 adds 100 to a channel and any other negates it,
    resets put the receiver's state to 0. *)
Definition demo_env : Collaborators nat nat nat Z unit Z Z unit :=
  {| Dataset_new := λ _, Ok 5%nat;
     REQUIRES_ANNOTATIONS := λ _, false;
     BaseReader_provide := λ _ _ _, Ok 6%nat;
     PreprocessingExecutor_new := λ _ _ _ _, Ok 1%nat;
     create_launcher := λ _, Ok 7%nat;
     CocosnetModel_new := λ _ _, Ok 8%nat;
     PostprocessingExecutor_new := λ _ _ _, Ok 9%nat;
     MetricsExecutor_new := λ _ _, Ok 10%nat;
     annotation_identifier := λ a, a;
     reader_call := λ _ idn,
       Ok {| data := [Z.of_nat idn; 1; 2]; metadata := (); identifier := idn |};
     set_annotation_metadata := λ _ a _ _, Ok a;
     DataRepresentation_new := λ x,
       {| data := x; metadata := (); identifier := 0%nat |};
     preprocessor_process := λ o images _,
       Ok ((λ r, {| data := if decide (o = 1%nat) then data r + 100
                            else - data r;
                    metadata := metadata r;
                    identifier := identifier r |}) <$> images);
     extract_image_representations := λ reps, (data <$> reps, metadata <$> reps);
     metric_executor_reset := λ _, Ok 0%nat;
     iterate_metrics := λ _ _ _, Ok [];
     write_result := λ _ _ _, Ok ();
     has_processors := λ _, false;
     dataset_reset := λ _ _, Ok 0%nat;
     reader_reset := λ _, Ok 0%nat |}.

(** An evaluator whose collaborators are the objects at references 1 to 8,
    in a heap where the object at reference [r] is in state [r]. *)
Definition demo_evaluator : CocosnetEvaluator nat Z Z :=
  {| launcher := 7%nat; reader := 6%nat; preprocessor_mask := 1%nat;
     preprocessor_image := 2%nat; postprocessor := 3%nat; dataset := 4%nat;
     metric_executor := 5%nat; model := 8%nat;
     _annotations := [11%nat]; _predictions := [3]; _metrics_results := [4] |}.

Definition demo_heap : heap nat := Heap 9%nat (λ r, r).

(** A configuration whose dataset entry has [reader_config] as its reader. *)
Definition demo_config (reader_config : pyval) : pyval :=
  PyDict {[
    "network_info" := PyDict ∅;
    "launchers" := PyList [PyDict {[ "framework" := PyStr "dlsdk" ]}];
    "datasets" := PyList [PyDict {[ "name" := PyStr "ADE20k";
                                    "reader" := reader_config ]}] ]}.

(** The character [.] *)
Definition dot : Ascii.ascii :=
  Ascii.Ascii false true true true false true false false.

(** A string none of whose characters is a dot. *)
Fixpoint dotless (t : string) : Prop :=
  match t with
  | EmptyString => True
  | String a t' => a ≠ dot ∧ dotless t'
  end.

(** A path library that leaves strings alone and rejects everything else. *)
Definition demo_path (v : pyval) : result string :=
  match v with
  | PyStr s => Ok s
  | _ => Raise TypeError
  end.

(** ** Further vocabulary *)

(** [a[k][i][j]] on a 3-D array *)
Definition getitem3 {A} (a : ndarray A) (k i j : Z) : result A :=
  match shape a with
  | [D0; D1; D2] =>
      k' ← norm_index D0 k;
      i' ← norm_index D1 i;
      j' ← norm_index D2 j;
      match flat a !! Z.to_nat ((k' * D1 + i') * D2 + j') with
      | Some v => Ok v
      | None => Raise IndexError
      end
  | _ => Raise IndexError
  end.

(** What the code relies on from [cv2.cvtColor(_, cv2.COLOR_BGR2RGB)]: a
    3-channel uint8 image comes back as a uint8 image of the same shape. *)
Definition cvtColor_contract (cvtColor : ndarray Z → result (ndarray Z)) : Prop :=
  ∀ (img : ndarray Z) (h w : Z),
    shape img = [h; w; 3] → 0 < h → 0 < w →
    Z.of_nat (length (flat img)) = h * w * 3 →
    Forall (λ x, 0 ≤ x ≤ 255) (flat img) →
    ∃ out, cvtColor img = Ok out ∧ shape out = [h; w; 3] ∧
           Z.of_nat (length (flat out)) = h * w * 3 ∧
           Forall (λ x, 0 ≤ x ≤ 255) (flat out).

(** What the code relies on from the cubic [cv2.resize] to 256x256: a
    non-empty 3-channel uint8 image comes back as a 256x256 uint8 image with
    3 channels (OpenCV saturates the interpolated values to the byte range). *)
Definition cubic_resize_256 (resize : ndarray Z → result (ndarray Z)) : Prop :=
  ∀ (img : ndarray Z) (h w : Z),
    shape img = [h; w; 3] → 0 < h → 0 < w →
    Z.of_nat (length (flat img)) = h * w * 3 →
    Forall (λ x, 0 ≤ x ≤ 255) (flat img) →
    ∃ out, resize img = Ok out ∧ shape out = [256; 256; 3] ∧
           Z.of_nat (length (flat out)) = 256 * 256 * 3 ∧
           Forall (λ x, 0 ≤ x ≤ 255) (flat out).

(** Two stand-ins meeting these contracts: the channel swap of each pixel,
    and a resize that answers with a mid-grey 256x256 image. *)
Fixpoint swap_channels (l : list Z) : list Z :=
  match l with
  | b :: g :: r :: l' => r :: g :: b :: swap_channels l'
  | _ => l
  end.

Definition demo_cvtColor (img : ndarray Z) : result (ndarray Z) :=
  Ok (NdArray (shape img) (swap_channels (flat img))).

Definition demo_resize_cubic (img : ndarray Z) : result (ndarray Z) :=
  Ok (NdArray [256; 256; 3] (replicate (Z.to_nat (256 * 256 * 3)) 128)).

(** Two variants of the small model: one whose feeder returns no feed at all
    for a sample that is not of shape (1, 2, 1, 1), one whose feeder returns a
    second, empty feed behind the first. *)
Definition starved_model : CocosnetModel Z (ndarray Z) (ndarray Z) :=
  {| correspondence :=
       {| input_feeder_fill_inputs := λ inp : ndarray Z,
            if decide (shape inp = [1; 2; 1; 1])
            then Ok [{[ "input_semantics" := inp ]}] else Ok [];
          corr_exec_network_infer :=
            corr_exec_network_infer demo_correspondence;
          key_of_warped_reference := "warped";
          key_of_input_semantics := "input_semantics" |};
     generator := demo_generator |}.

Definition twice_fed_model : CocosnetModel Z (ndarray Z) (ndarray Z) :=
  {| correspondence :=
       {| input_feeder_fill_inputs := λ inp : ndarray Z,
            Ok [{[ "input_semantics" := inp ]}; ∅];
          corr_exec_network_infer :=
            corr_exec_network_infer demo_correspondence;
          key_of_warped_reference := "warped";
          key_of_input_semantics := "input_semantics" |};
     generator := demo_generator |}.

(** [CocosnetEvaluator.get_processing_info].  The five entries of the tuple
    are evaluated from left to right.  A mapping of the configuration has
    string keys here, so [v[0]] on a mapping is a [KeyError]; the statements
    about this function take ['launchers'] and ['datasets'] to be lists. *)
Definition get_processing_info (config : pyval)
  : result (pyval * pyval * pyval * pyval * pyval) :=
  module_specific_params ← py_get config "module_config" PyNone;
  launcher_config ← py_getitem module_specific_params "launchers" ≫= py_getitem0;
  dataset_config ← py_getitem module_specific_params "datasets" ≫= py_getitem0;
  name ← py_getitem config "name";
  framework ← py_getitem launcher_config "framework";
  device ← py_getitem launcher_config "device";
  tags ← py_get launcher_config "tags" PyNone;
  dataset_name ← py_getitem dataset_config "name";
  Ok (name, framework, device, tags, dataset_name).

(** [CorrespondenceNetwork.release] and [GeneratorNetwork.release]:
    [del self.exec_network].  The attribute is [None] here when the object
    has none (the model was never loaded, or was released); the outcome comes
    with the attribute as the call leaves it. *)
Definition network_release {E} (exec_network : option E)
  : option E * result unit :=
  match exec_network with
  | Some _ => (None, Ok ())
  | None => (None, Raise AttributeError)
  end.

(** [CocosnetModel.release]: the correspondence network first, then the
    generator; an exception of the first leaves the second as it was. *)
Definition model_release {Ec Eg} (correspondence : option Ec)
    (generator : option Eg) : option Ec * option Eg * result unit :=
  match network_release correspondence with
  | (correspondence, Ok _) =>
      let '(generator, outcome) := network_release generator in
      (correspondence, generator, outcome)
  | (correspondence, Raise e) => (correspondence, generator, Raise e)
  end.

(** The small model again, fed with a whole batch of data representations:
    the feeder packs the first channel of every sample into one tensor. *)
Definition batch_model
  : CocosnetModel Z (list (DataRepresentation (list Z) unit nat)) (ndarray Z) :=
  {| correspondence :=
       {| input_feeder_fill_inputs :=
            λ batch : list (DataRepresentation (list Z) unit nat),
              Ok [{[ "input_semantics" :=
                       NdArray [1; Z.of_nat (length batch); 1; 1]
                         ((λ r, default 0 (head (data r))) <$> batch) ]}];
          corr_exec_network_infer :=
            corr_exec_network_infer demo_correspondence;
          key_of_warped_reference := "warped";
          key_of_input_semantics := "input_semantics" |};
     generator := demo_generator |}.

(** The order test behind the monotonicity of [normalization]: for bytes
    [x < y], the float64 images are in the same strict order. *)
Definition byte_order_ok (x y : Z) : bool :=
  implb (x <? y)
    (PrimFloat.ltb
       (PrimFloat.div (PrimFloat.sub (float_of_int x) 127.5) 127.5)
       (PrimFloat.div (PrimFloat.sub (float_of_int y) 127.5) 127.5)).

(** * Properties *)

(** ** Normalization *)

Section Normalization.

Lemma byte_ok_all : forallb byte_ok (range 256) = true.
Proof. vm_compute. reflexivity. Qed.

Lemma byte_ok_byte (x : Z) : 0 ≤ x ≤ 255 → byte_ok x = true.
Proof.
  intros Hx. pose proof byte_ok_all as Hall.
  rewrite forallb_forall in Hall. apply Hall.
  apply list_elem_of_In, elem_of_seqZ. lia.
Qed.

Lemma normalizationQ_range (x : Z) :
  0 ≤ x ≤ 255 →
  (-1 <= normalizationQ (inject_Z x) (255 # 2) (255 # 2) <= 1)%Q.
Proof.
  intros Hx. unfold normalizationQ, Qle, Qdiv, Qminus, Qmult, Qplus, Qopp, Qinv.
  simpl. lia.
Qed.

Lemma normalizationQ_inverse (x : Q) :
  (denormalizeQ (normalizationQ x (255 # 2) (255 # 2)) == x)%Q.
Proof. unfold denormalizeQ, normalizationQ. field. Qed.

End Normalization.

(** C3: on a uint8 image, [normalization] keeps the shape and maps every
    entry [x] to the float64 value [(x - 127.5) / 127.5]; that value lies in
    [-1, 1] and [y * 127.5 + 127.5] gives back [x], in float64 arithmetic
    (with exact equality) as well as over the rationals. *)
Theorem normalization_range_and_inverse (img : ndarray Z) :
  Forall (λ x, 0 ≤ x ≤ 255) (flat img) →
  shape (normalization img 127.5 127.5) = shape img ∧
  Forall2 (λ x y,
      y = PrimFloat.div (PrimFloat.sub (float_of_int x) 127.5) 127.5 ∧
      PrimFloat.leb (-1) y = true ∧ PrimFloat.leb y 1 = true ∧
      PrimFloat.eqb (denormalize y) (float_of_int x) = true ∧
      (-1 <= normalizationQ (inject_Z x) (255 # 2) (255 # 2) <= 1)%Q ∧
      (denormalizeQ (normalizationQ (inject_Z x) (255 # 2) (255 # 2))
         == inject_Z x)%Q)
    (flat img) (flat (normalization img 127.5 127.5)).
Proof.
  intros Hbytes. split; [reflexivity|].
  unfold normalization, np_divide, np_subtract; simpl.
  rewrite <- list_fmap_compose.
  apply Forall2_fmap_r, Forall_Forall2_diag.
  induction Hbytes as [|x l Hx _ IH]; constructor; [|exact IH]. simpl.
  pose proof (byte_ok_byte x Hx) as Hok. unfold byte_ok in Hok.
  apply andb_prop in Hok as [Hok Heq]. apply andb_prop in Hok as [Hlo Hhi].
  repeat split; try assumption.
  - apply (normalizationQ_range x Hx).
  - apply (normalizationQ_range x Hx).
  - apply normalizationQ_inverse.
Qed.

Lemma normalization_range_and_inverse_witness :
  let img := NdArray [1; 2; 2] [0; 1; 128; 255] in
  shape (normalization img 127.5 127.5) = shape img ∧
  Forall2 (λ x y,
      y = PrimFloat.div (PrimFloat.sub (float_of_int x) 127.5) 127.5 ∧
      PrimFloat.leb (-1) y = true ∧ PrimFloat.leb y 1 = true ∧
      PrimFloat.eqb (denormalize y) (float_of_int x) = true ∧
      (-1 <= normalizationQ (inject_Z x) (255 # 2) (255 # 2) <= 1)%Q ∧
      (denormalizeQ (normalizationQ (inject_Z x) (255 # 2) (255 # 2))
         == inject_Z x)%Q)
    (flat img) (flat (normalization img 127.5 127.5)).
Proof.
  apply (normalization_range_and_inverse (NdArray [1; 2; 2] [0; 1; 128; 255])).
  simpl. repeat constructor; lia.
Defined.

(** ** Generic facts: the error monad, indices, loops *)

Section Generic.

Lemma bind_Ok {A B} (m : result A) (f : A → result B) (b : B) :
  m ≫= f = Ok b ↔ ∃ a, m = Ok a ∧ f a = Ok b.
Proof.
  destruct m as [a|e]; simpl; split.
  - intros H. exists a. done.
  - intros (a' & [= <-] & H). done.
  - intros H. discriminate.
  - intros (a' & H & _). discriminate.
Qed.

Lemma bind_Raise {A B} (m : result A) (f : A → result B) (e : exn) :
  m ≫= f = Raise e ↔ m = Raise e ∨ ∃ a, m = Ok a ∧ f a = Raise e.
Proof.
  destruct m as [a|e']; simpl; split.
  - intros H. right. exists a. done.
  - intros [H|(a' & [= <-] & H)]; done.
  - intros [= ->]. by left.
  - intros [[= ->]|(a' & H & _)]; [reflexivity|discriminate H].
Qed.

Lemma foldM_app {A S} (body : S → A → result S) (l1 l2 : list A) (s : S) :
  foldM body (l1 ++ l2) s = foldM body l1 s ≫= foldM body l2.
Proof.
  revert s. induction l1 as [|x l1 IH]; intros s; simpl; [done|].
  destruct (body s x) as [s'|e]; simpl; [apply IH|done].
Qed.

(** A loop raises only what its body raises. *)
Lemma foldM_Raise {A S} (P : exn → Prop) (body : S → A → result S)
    (l : list A) (s : S) (e : exn) :
  (∀ s x e, x ∈ l → body s x = Raise e → P e) →
  foldM body l s = Raise e → P e.
Proof.
  revert s. induction l as [|x l IH]; intros s Hbody; simpl; [done|].
  destruct (body s x) as [s'|e'] eqn:Hx; simpl.
  - apply IH. intros s1 y e1 Hy. apply Hbody. by right.
  - intros [= ->]. eapply Hbody; [|exact Hx]. by left.
Qed.

(** A loop that returns ran its body, without exception, on every element,
    each time from a state satisfying the loop invariant. *)
Lemma foldM_Ok_each {A S} (I : S → Prop) (body : S → A → result S)
    (l : list A) (s s' : S) :
  (∀ s x s', I s → body s x = Ok s' → I s') →
  I s → foldM body l s = Ok s' →
  I s' ∧ ∀ x, x ∈ l → ∃ s1 s2, I s1 ∧ body s1 x = Ok s2.
Proof.
  intros Hstep. revert s. induction l as [|x l IH]; intros s Hs; simpl.
  - intros [= <-]. split; [done|]. intros x Hx. by apply elem_of_nil in Hx.
  - destruct (body s x) as [s1|e] eqn:Hx; simpl; [|done].
    intros Hrest. destruct (IH s1 (Hstep _ _ _ Hs Hx) Hrest) as [Hs' Hall].
    split; [done|]. intros y [->|Hy]%elem_of_cons; [eauto|by apply Hall].
Qed.

Lemma norm_index_nonneg (n k : Z) : 0 ≤ k < n → norm_index n k = Ok k.
Proof. intros H. unfold norm_index. by rewrite decide_True. Qed.

Lemma norm_index_negative (n k : Z) :
  - n ≤ k < 0 → norm_index n k = Ok (k + n).
Proof.
  intros H. unfold norm_index.
  rewrite decide_False by lia. by rewrite decide_True.
Qed.

Lemma norm_index_outside (n k : Z) :
  k < - n ∨ (n ≤ k ∧ 0 ≤ k) → norm_index n k = Raise IndexError.
Proof.
  intros H. unfold norm_index.
  rewrite decide_False by lia. by rewrite decide_False by lia.
Qed.

Lemma norm_index_Ok (n k k' : Z) :
  norm_index n k = Ok k' →
  0 ≤ k' < n ∧ - n ≤ k < n ∧ k' = (if decide (k < 0) then k + n else k).
Proof.
  unfold norm_index. repeat case_decide; intros [= <-]; lia.
Qed.

Lemma norm_index_Raise (n k : Z) (e : exn) :
  norm_index n k = Raise e → e = IndexError.
Proof. unfold norm_index. repeat case_decide; congruence. Qed.

Lemma offset_inj (W a j a' j' : Z) :
  0 ≤ j < W → 0 ≤ j' < W → a * W + j = a' * W + j' → a = a' ∧ j = j'.
Proof.
  intros Hj Hj' Heq.
  destruct (decide (a = a')) as [->|Hne]; [lia|]. exfalso.
  assert (a < a' ∨ a' < a) as [Hlt|Hlt] by lia.
  - assert ((a + 1) * W ≤ a' * W) by (apply Z.mul_le_mono_nonneg_r; lia). lia.
  - assert ((a' + 1) * W ≤ a * W) by (apply Z.mul_le_mono_nonneg_r; lia). lia.
Qed.

Lemma offset4_inj (C H W c i j c' i' j' : Z) :
  0 ≤ c < C → 0 ≤ i < H → 0 ≤ j < W →
  0 ≤ c' < C → 0 ≤ i' < H → 0 ≤ j' < W →
  offset4 C H W 0 c i j = offset4 C H W 0 c' i' j' →
  c = c' ∧ i = i' ∧ j = j'.
Proof.
  unfold offset4. intros Hc Hi Hj Hc' Hi' Hj' Heq.
  apply offset_inj in Heq as [Heq ->]; [|done..].
  apply offset_inj in Heq as [Heq ->]; [|done..].
  lia.
Qed.

Lemma offset4_bound (C H W c i j : Z) :
  0 ≤ c < C → 0 ≤ i < H → 0 ≤ j < W →
  0 ≤ offset4 C H W 0 c i j < C * H * W.
Proof.
  unfold offset4. intros Hc Hi Hj.
  replace (0 * C + c) with c by lia.
  assert (0 ≤ c * H) by (apply Z.mul_nonneg_nonneg; lia).
  assert (c * H ≤ (C - 1) * H) by (apply Z.mul_le_mono_nonneg_r; lia).
  assert (0 ≤ (c * H + i) * W) by (apply Z.mul_nonneg_nonneg; lia).
  assert ((c * H + i) * W ≤ (C * H - 1) * W)
    by (apply Z.mul_le_mono_nonneg_r; lia).
  replace ((C * H - 1) * W) with (C * H * W - W) in * by ring.
  lia.
Qed.

Lemma offset2_bound (H W i j : Z) :
  0 ≤ i < H → 0 ≤ j < W → 0 ≤ offset2 W i j < H * W.
Proof.
  unfold offset2. intros Hi Hj.
  assert (0 ≤ i * W) by (apply Z.mul_nonneg_nonneg; lia).
  assert (i * W ≤ (H - 1) * W) by (apply Z.mul_le_mono_nonneg_r; lia).
  replace ((H - 1) * W) with (H * W - W) in * by ring.
  lia.
Qed.

End Generic.

(** ** The one-hot scatter *)

Section Scatter.
Context (C H W : Z) (src : ndarray Z) (h w : Z).
Hypothesis Hshape : shape src = [h; w].
Hypothesis Hlen : Z.of_nat (length (flat src)) = h * w.
Hypothesis HhH : 0 ≤ h ≤ H.
Hypothesis HwW : 0 ≤ w ≤ W.
Hypothesis Hlabels :
  ∀ i j, 0 ≤ i < h → 0 ≤ j < w → - C ≤ label_at src w i j < C.

Lemma getitem2_label (i j : Z) :
  0 ≤ i < h → 0 ≤ j < w → getitem2 src i j = Ok (label_at src w i j).
Proof.
  intros Hi Hj. unfold getitem2, label_at. rewrite Hshape.
  rewrite (norm_index_nonneg h i Hi), (norm_index_nonneg w j Hj). simpl.
  pose proof (offset2_bound h w i j Hi Hj) as Hoff.
  destruct (flat src !! Z.to_nat (offset2 w i j)) as [v|] eqn:Hv; [done|].
  apply lookup_ge_None in Hv. lia.
Qed.

Lemma norm_index_channel (v : Z) :
  - C ≤ v < C → norm_index C v = Ok (channel_of C v) ∧ 0 ≤ channel_of C v < C.
Proof.
  intros Hv. unfold channel_of. case_decide.
  - rewrite norm_index_negative by lia. split; [done|lia].
  - rewrite norm_index_nonneg by lia. split; [done|lia].
Qed.

Lemma scatter_pixel (i0 j0 : Z) (out : ndarray Z) :
  0 ≤ i0 < h → 0 ≤ j0 < w →
  scattered C H W src w i0 j0 out →
  ∃ out', (getitem2 src i0 j0 ≫= λ lbl, setitem4 out 0 lbl i0 j0 1) = Ok out' ∧
          scattered C H W src w i0 (j0 + 1) out'.
Proof.
  intros Hi Hj (Hsh & Hsize & Hcells).
  rewrite (getitem2_label i0 j0 Hi Hj). simpl.
  destruct (norm_index_channel (label_at src w i0 j0) (Hlabels i0 j0 Hi Hj))
    as [Hnorm Hch].
  unfold setitem4. rewrite Hsh, Hnorm.
  rewrite (norm_index_nonneg 1 0) by lia.
  rewrite (norm_index_nonneg H i0), (norm_index_nonneg W j0) by lia. simpl.
  eexists; split; [reflexivity|].
  split; [done|]. split; [simpl; by rewrite length_insert|].
  intros c i j Hc Hi' Hj'. simpl.
  set (ch := channel_of C (label_at src w i0 j0)) in *.
  pose proof (offset4_bound C H W ch i0 j0 Hch ltac:(lia) ltac:(lia)) as Hb0.
  pose proof (offset4_bound C H W c i j Hc Hi' Hj') as Hb.
  destruct (decide (c = ch ∧ i = i0 ∧ j = j0)) as [(-> & -> & ->)|Hne].
  - rewrite list_lookup_insert_eq by lia.
    rewrite bool_decide_eq_true_2; [done|]. fold ch. lia.
  - rewrite list_lookup_insert_ne.
    + rewrite (Hcells c i j Hc Hi' Hj'). f_equal.
      destruct (decide (i = i0 ∧ j = j0)) as [[-> ->]|Hpos].
      * rewrite !bool_decide_eq_false_2; [done| |]; fold ch; lia.
      * erewrite bool_decide_ext; [done|]. lia.
    + intros Heq. apply Z2Nat.inj in Heq; [|lia..].
      apply offset4_inj in Heq; lia.
Qed.

Lemma scatter_row (i0 : Z) (n : nat) :
  0 ≤ i0 < h →
  ∀ (j0 : Z) (out : ndarray Z),
    0 ≤ j0 → j0 + Z.of_nat n ≤ w →
    scattered C H W src w i0 j0 out →
    ∃ out',
      foldM (λ out j, getitem2 src i0 j ≫= λ lbl, setitem4 out 0 lbl i0 j 1)
            (seqZ j0 (Z.of_nat n)) out = Ok out' ∧
      scattered C H W src w i0 (j0 + Z.of_nat n) out'.
Proof.
  intros Hi. induction n as [|n IH]; intros j0 out Hj0 Hjn Hinv.
  - simpl. exists out. split; [done|]. by rewrite Z.add_0_r.
  - rewrite seqZ_cons by lia. simpl foldM.
    destruct (scatter_pixel i0 j0 out Hi ltac:(lia) Hinv) as (out1 & -> & Hinv1).
    simpl. replace (Z.pred (Z.of_nat (S n))) with (Z.of_nat n) by lia.
    destruct (IH (Z.succ j0) out1 ltac:(lia) ltac:(lia)) as (out' & Hfold & Hinv').
    { by replace (Z.succ j0) with (j0 + 1) by lia. }
    exists out'. split; [done|].
    by replace (j0 + Z.of_nat (S n)) with (Z.succ j0 + Z.of_nat n) by lia.
Qed.

Lemma scattered_next_row (i0 : Z) (out : ndarray Z) :
  scattered C H W src w i0 w out → scattered C H W src w (i0 + 1) 0 out.
Proof.
  intros (Hsh & Hsize & Hcells). split; [done|]. split; [done|].
  intros c i j Hc Hi Hj. rewrite (Hcells c i j Hc Hi Hj). f_equal.
  erewrite bool_decide_ext; [done|]. lia.
Qed.

Lemma scatter_rows (n : nat) :
  ∀ (i0 : Z) (out : ndarray Z),
    0 ≤ i0 → i0 + Z.of_nat n ≤ h →
    scattered C H W src w i0 0 out →
    ∃ out',
      foldM (λ out i,
          foldM (λ out j, getitem2 src i j ≫= λ lbl, setitem4 out 0 lbl i j 1)
                (range w) out)
        (seqZ i0 (Z.of_nat n)) out = Ok out' ∧
      scattered C H W src w (i0 + Z.of_nat n) 0 out'.
Proof.
  induction n as [|n IH]; intros i0 out Hi0 Hin Hinv.
  - simpl. exists out. split; [done|]. by rewrite Z.add_0_r.
  - rewrite seqZ_cons by lia. simpl foldM.
    destruct (scatter_row i0 (Z.to_nat w) ltac:(lia) 0 out ltac:(lia) ltac:(lia) Hinv)
      as (out1 & Hrow & Hinv1).
    unfold range. rewrite Z2Nat.id in Hrow, Hinv1 by lia.
    rewrite Hrow. simpl. rewrite Z.add_0_l in Hinv1.
    apply scattered_next_row in Hinv1.
    replace (Z.pred (Z.of_nat (S n))) with (Z.of_nat n) by lia.
    destruct (IH (Z.succ i0) out1 ltac:(lia) ltac:(lia)) as (out' & Hfold & Hinv').
    { by replace (Z.succ i0) with (i0 + 1) by lia. }
    exists out'. split; [done|].
    by replace (i0 + Z.of_nat (S n)) with (Z.succ i0 + Z.of_nat n) by lia.
Qed.

(** The whole loop nest, from an array on which nothing is written yet. *)
Lemma scatter_into_scattered (out : ndarray Z) :
  scattered C H W src w 0 0 out →
  ∃ out', scatter_into out src = Ok out' ∧ scattered C H W src w h 0 out'.
Proof.
  intros Hinv. unfold scatter_into. rewrite Hshape.
  destruct (scatter_rows (Z.to_nat h) 0 out ltac:(lia) ltac:(lia) Hinv)
    as (out' & Hfold & Hinv').
  rewrite Z2Nat.id in Hfold, Hinv' by lia. exists out'. split; [exact Hfold|].
  by rewrite Z.add_0_l in Hinv'.
Qed.

End Scatter.

Lemma zeros_scattered (C H W : Z) (src : ndarray Z) (w : Z) :
  0 ≤ C → 0 ≤ H → 0 ≤ W →
  scattered C H W src w 0 0 (np_zeros [1; C; H; W]).
Proof.
  intros HC HH HW.
  assert (size_of [1; C; H; W] = C * H * W) as Hsize by (simpl; ring).
  assert (0 ≤ C * H * W) by (repeat apply Z.mul_nonneg_nonneg; lia).
  unfold np_zeros. rewrite Hsize.
  split; [done|]. split; [simpl; rewrite length_replicate; lia|].
  intros c i j Hc Hi Hj. simpl.
  pose proof (offset4_bound C H W c i j Hc Hi Hj) as Hb.
  rewrite lookup_replicate_2 by lia.
  rewrite bool_decide_eq_false_2; [done|lia].
Qed.

Lemma getitem4_scattered (C H W : Z) (src : ndarray Z) (w i0 j0 : Z)
    (out : ndarray Z) (c i j : Z) :
  scattered C H W src w i0 j0 out →
  0 ≤ c < C → 0 ≤ i < H → 0 ≤ j < W →
  getitem4 out 0 c i j =
  Ok (if bool_decide ((i < i0 ∨ (i = i0 ∧ j < j0)) ∧ j < w ∧
                      c = channel_of C (label_at src w i j))
      then 1 else 0).
Proof.
  intros (Hsh & _ & Hcells) Hc Hi Hj. unfold getitem4. rewrite Hsh.
  rewrite (norm_index_nonneg 1 0) by lia.
  rewrite (norm_index_nonneg C c), (norm_index_nonneg H i),
    (norm_index_nonneg W j) by lia.
  simpl. by rewrite (Hcells c i j Hc Hi Hj).
Qed.

(** Summing a one-hot column gives 1. *)
Lemma sum_indicator (get : Z → result Z) (l : Z) (n : nat) :
  ∀ (m acc : Z),
    (∀ c, m ≤ c < m + Z.of_nat n →
          get c = Ok (if bool_decide (c = l) then 1 else 0)) →
    foldM (λ acc c, get c ≫= λ v, Ok (acc + v)) (seqZ m (Z.of_nat n)) acc =
    Ok (acc + (if bool_decide (m ≤ l < m + Z.of_nat n) then 1 else 0)).
Proof.
  induction n as [|n IH]; intros m acc Hget.
  - simpl. rewrite bool_decide_eq_false_2 by lia. by rewrite Z.add_0_r.
  - rewrite seqZ_cons by lia. simpl foldM.
    rewrite (Hget m) by lia. simpl.
    replace (Z.pred (Z.of_nat (S n))) with (Z.of_nat n) by lia.
    rewrite IH by (intros c Hc; apply Hget; lia). f_equal.
    repeat case_bool_decide; lia.
Qed.

Lemma class_sum_onehot (out : ndarray Z) (B C H W i j l : Z) :
  shape out = [B; C; H; W] → 0 ≤ l < C →
  (∀ c, 0 ≤ c < C →
        getitem4 out 0 c i j = Ok (if bool_decide (c = l) then 1 else 0)) →
  class_sum out i j = Ok 1.
Proof.
  intros Hsh Hl Hget. unfold class_sum, range. rewrite Hsh.
  rewrite <- (Z2Nat.id C) at 1 by lia.
  rewrite (sum_indicator (λ c, getitem4 out 0 c i j) l).
  - rewrite bool_decide_eq_true_2; [done|lia].
  - intros c Hc. apply Hget. lia.
Qed.

Lemma elem_of_label_at (src : ndarray Z) (h w i j : Z) :
  Z.of_nat (length (flat src)) = h * w → 0 ≤ i < h → 0 ≤ j < w →
  label_at src w i j ∈ flat src.
Proof.
  intros Hlen Hi Hj. unfold label_at.
  pose proof (offset2_bound h w i j Hi Hj) as Hoff.
  destruct (flat src !! Z.to_nat (offset2 w i j)) as [v|] eqn:Hv.
  - simpl. eapply list_elem_of_lookup_2, Hv.
  - apply lookup_ge_None in Hv. lia.
Qed.

(** Every entry of a grid sits at some row and column. *)
Lemma label_at_elem_of (src : ndarray Z) (h w v : Z) :
  0 ≤ h → 0 ≤ w → Z.of_nat (length (flat src)) = h * w → v ∈ flat src →
  ∃ i j, 0 ≤ i < h ∧ 0 ≤ j < w ∧ label_at src w i j = v.
Proof.
  intros Hh Hw Hlen [k Hk]%list_elem_of_lookup_1.
  pose proof (lookup_lt_Some _ _ _ Hk) as Hlt.
  assert (0 < w) by nia.
  exists (Z.of_nat k / w), (Z.of_nat k `mod` w).
  pose proof (Z.div_mod (Z.of_nat k) w ltac:(lia)) as Hdm.
  pose proof (Z.mod_pos_bound (Z.of_nat k) w ltac:(lia)) as Hmod.
  assert (0 ≤ Z.of_nat k / w) by (apply Z.div_pos; lia).
  assert (Z.of_nat k / w < h).
  { apply Z.div_lt_upper_bound; [lia|]. rewrite Z.mul_comm. lia. }
  split; [lia|]. split; [lia|].
  unfold label_at, offset2.
  replace (Z.of_nat k / w * w + Z.of_nat k `mod` w) with (Z.of_nat k) by lia.
  by rewrite Nat2Z.id, Hk.
Qed.

(** [scatter] on a grid that fits the 256x256 output and whose labels all
    select a channel: it returns, and the entry at [(0, c, i, j)] is 1
    exactly when [(i, j)] is a pixel of the grid and [c] is the channel its
    label selects. *)
Lemma scatter_Ok (src : ndarray Z) (h w : Z) :
  shape src = [h; w] → Z.of_nat (length (flat src)) = h * w →
  0 ≤ h ≤ 256 → 0 ≤ w ≤ 256 →
  (∀ v, v ∈ flat src → -151 ≤ v < 151) →
  ∃ out, scatter src = Ok out ∧ scattered 151 256 256 src w h 0 out.
Proof.
  intros Hsh Hlen Hh Hw Hval. unfold scatter.
  apply (scatter_into_scattered 151 256 256 src h w).
  - exact Hsh.
  - exact Hlen.
  - exact Hh.
  - exact Hw.
  - intros i j Hi Hj. apply Hval. apply (elem_of_label_at src h w); assumption.
  - apply zeros_scattered; lia.
Qed.

(** C1: the mask preprocessing of a non-empty label grid with labels in
    [0, 151) returns a tensor of shape (1, 151, 256, 256); at every pixel the
    sum over the class axis is 1, and the entry of channel [c] is 1 exactly
    when [c] is the label of the resized grid at that pixel. *)
Theorem preprocess_with_semantics_onehot
    (cv2_resize_nearest : ndarray Z → result (ndarray Z))
    (mask : ndarray Z) (h w : Z) :
  nearest_resize_256 cv2_resize_nearest →
  shape mask = [h; w] → 0 < h → 0 < w → wf_ndarray mask →
  (∀ v, v ∈ flat mask → 0 ≤ v < 151) →
  ∃ resized out,
    cv2_resize_nearest mask = Ok resized ∧
    preprocess_with_semantics cv2_resize_nearest mask = Ok out ∧
    shape out = [1; 151; 256; 256] ∧
    Z.of_nat (length (flat out)) = 1 * 151 * 256 * 256 ∧
    ∀ i j, 0 ≤ i < 256 → 0 ≤ j < 256 →
      ∃ lbl, getitem2 resized i j = Ok lbl ∧ 0 ≤ lbl < 151 ∧
             class_sum out i j = Ok 1 ∧
             ∀ c, 0 ≤ c < 151 →
                  getitem4 out 0 c i j = Ok (if bool_decide (c = lbl) then 1 else 0).
Proof.
  intros Hresize Hsh Hh Hw Hwf Hval.
  destruct (Hresize mask h w Hsh Hh Hw Hwf)
    as (resized & Hres & Hrsh & [_ Hrlen] & Hfrom).
  rewrite Hrsh in Hrlen. simpl in Hrlen.
  assert (∀ v, v ∈ flat resized → 0 ≤ v < 151) as Hrval by (intros v Hv; auto).
  destruct (scatter_Ok resized 256 256 Hrsh) as (out & Hscatter & Hinv);
    [lia|lia|lia|intros v Hv; specialize (Hrval v Hv); lia|].
  exists resized, out. split; [done|].
  split; [unfold preprocess_with_semantics; by rewrite Hres; simpl; rewrite Hscatter|].
  destruct Hinv as (Hosh & Holen & Hcells) eqn:E. clear E.
  split; [done|]. split; [lia|].
  intros i j Hi Hj. exists (label_at resized 256 i j).
  assert (label_at resized 256 i j ∈ flat resized) as Hin
    by (apply (elem_of_label_at resized 256 256); lia).
  pose proof (Hrval _ Hin) as Hlbl.
  assert (∀ c, 0 ≤ c < 151 →
            getitem4 out 0 c i j =
            Ok (if bool_decide (c = label_at resized 256 i j) then 1 else 0))
    as Hget.
  { intros c Hc.
    rewrite (getitem4_scattered 151 256 256 resized 256 256 0 out c i j Hinv)
      by lia.
    f_equal. apply (f_equal (λ b : bool, if b then 1 else 0)).
    apply bool_decide_ext. unfold channel_of. rewrite decide_False by lia. lia. }
  split; [apply (getitem2_label resized 256 256); (done || lia)|].
  split; [done|]. split; [|done].
  by apply (class_sum_onehot out 1 151 256 256 i j (label_at resized 256 i j)).
Qed.

(** The nearest-neighbour resize above meets what the code relies on. *)
Lemma length_bind_const {A B} (f : A → list B) (k : nat) (l : list A) :
  (∀ x, length (f x) = k) → length (l ≫= f) = (length l * k)%nat.
Proof.
  intros Hf. induction l as [|x l IH]; [done|].
  rewrite bind_cons, length_app, Hf, IH. simpl. lia.
Qed.

Lemma resize_nearest_spec (dh dw : Z) (src : ndarray Z) (h w : Z) :
  0 < dh → 0 < dw →
  shape src = [h; w] → 0 < h → 0 < w → Z.of_nat (length (flat src)) = h * w →
  ∃ dst, resize_nearest dh dw src = Ok dst ∧ shape dst = [dh; dw] ∧
         Z.of_nat (length (flat dst)) = dh * dw ∧
         ∀ v, v ∈ flat dst → v ∈ flat src.
Proof.
  intros Hdh Hdw Hsh Hh Hw Hlen.
  unfold resize_nearest. rewrite Hsh, decide_True by lia.
  eexists. split; [reflexivity|]. split; [reflexivity|]. split.
  - cbn [flat]. rewrite (length_bind_const _ (Z.to_nat dw)).
    + unfold range. rewrite length_seqZ. nia.
    + intros i. rewrite (length_bind_const _ 1%nat); [|reflexivity].
      unfold range. rewrite length_seqZ. lia.
  - cbn [flat]. intros v (i & Hv & Hi)%list_elem_of_bind.
    apply list_elem_of_bind in Hv as (j & Hv & Hj).
    apply list_elem_of_singleton in Hv as ->.
    apply elem_of_seqZ in Hi, Hj.
    assert (0 ≤ i * h / dh) by (apply Z.div_pos; lia).
    assert (0 ≤ j * w / dw) by (apply Z.div_pos; lia).
    apply (elem_of_label_at src h w); lia.
Qed.

Lemma resize_nearest_256 : nearest_resize_256 (resize_nearest 256 256).
Proof.
  intros src h w Hsh Hh Hw [_ Hlen]. rewrite Hsh in Hlen.
  replace (size_of [h; w]) with (h * w) in Hlen by (cbn; ring).
  destruct (resize_nearest_spec 256 256 src h w) as (dst & Hdst & Hdsh & Hdlen & Hv);
    [lia|lia|assumption|lia|lia|assumption|].
  exists dst. split; [assumption|]. split; [assumption|]. split; [|assumption].
  split; rewrite Hdsh; [repeat constructor; lia|].
  rewrite Hdlen. reflexivity.
Qed.

Lemma preprocess_with_semantics_onehot_witness :
  let mask := NdArray [2; 2] [0; 1; 2; 150] in
  ∃ resized out,
    resize_nearest 256 256 mask = Ok resized ∧
    preprocess_with_semantics (resize_nearest 256 256) mask = Ok out ∧
    shape out = [1; 151; 256; 256] ∧
    Z.of_nat (length (flat out)) = 1 * 151 * 256 * 256 ∧
    ∀ i j, 0 ≤ i < 256 → 0 ≤ j < 256 →
      ∃ lbl, getitem2 resized i j = Ok lbl ∧ 0 ≤ lbl < 151 ∧
             class_sum out i j = Ok 1 ∧
             ∀ c, 0 ≤ c < 151 →
                  getitem4 out 0 c i j = Ok (if bool_decide (c = lbl) then 1 else 0).
Proof.
  apply (preprocess_with_semantics_onehot (resize_nearest 256 256)
           (NdArray [2; 2] [0; 1; 2; 150]) 2 2).
  - exact resize_nearest_256.
  - reflexivity.
  - lia.
  - lia.
  - split; [simpl; repeat constructor; lia|reflexivity].
  - simpl. intros v Hv. repeat (apply elem_of_cons in Hv as [->|Hv]; [lia|]).
    by apply elem_of_nil in Hv.
Defined.

(** ** Labels outside the class range *)

Lemma getitem2_Raise {A} (a : ndarray A) (i j : Z) (e : exn) :
  getitem2 a i j = Raise e → e = IndexError.
Proof.
  unfold getitem2. destruct (shape a) as [|H [|W [|? ?]]]; try congruence.
  destruct (norm_index H i) as [i'|e1] eqn:Hi; simpl;
    [|intros [= <-]; by apply norm_index_Raise in Hi].
  destruct (norm_index W j) as [j'|e2] eqn:Hj; simpl;
    [|intros [= <-]; by apply norm_index_Raise in Hj].
  destruct (flat a !! _); congruence.
Qed.

Lemma setitem4_Raise {A} (a : ndarray A) (b c i j : Z) (v : A) (e : exn) :
  setitem4 a b c i j v = Raise e → e = IndexError.
Proof.
  unfold setitem4.
  destruct (shape a) as [|B [|C [|H [|W [|? ?]]]]]; try congruence.
  destruct (norm_index B b) as [b'|e1] eqn:Hb; simpl;
    [|intros [= <-]; by apply norm_index_Raise in Hb].
  destruct (norm_index C c) as [c'|e2] eqn:Hc; simpl;
    [|intros [= <-]; by apply norm_index_Raise in Hc].
  destruct (norm_index H i) as [i'|e3] eqn:Hi; simpl;
    [|intros [= <-]; by apply norm_index_Raise in Hi].
  destruct (norm_index W j) as [j'|e4] eqn:Hj; simpl;
    [|intros [= <-]; by apply norm_index_Raise in Hj].
  congruence.
Qed.

Lemma setitem4_Ok {A} (a a' : ndarray A) (B C H W b c i j : Z) (v : A) :
  shape a = [B; C; H; W] → setitem4 a b c i j v = Ok a' →
  shape a' = [B; C; H; W] ∧ - C ≤ c < C.
Proof.
  intros Hsh. unfold setitem4. rewrite Hsh.
  destruct (norm_index B b) as [b'|] eqn:Hb; simpl; [|congruence].
  destruct (norm_index C c) as [c'|] eqn:Hc; simpl; [|congruence].
  destruct (norm_index H i) as [i'|] eqn:Hi; simpl; [|congruence].
  destruct (norm_index W j) as [j'|] eqn:Hj; simpl; [|congruence].
  intros [= <-]. split; [done|]. apply norm_index_Ok in Hc. lia.
Qed.

(** The loop nest of [scatter] raises nothing but [IndexError]. *)
Lemma scatter_into_Raise (out src : ndarray Z) (h w : Z) (e : exn) :
  shape src = [h; w] → scatter_into out src = Raise e → e = IndexError.
Proof.
  intros Hsh. unfold scatter_into. rewrite Hsh.
  apply (foldM_Raise (λ e, e = IndexError)). intros s i e1 _.
  apply (foldM_Raise (λ e, e = IndexError)). intros s' j e2 _.
  intros [Hget|(lbl & _ & Hset)]%bind_Raise.
  - by apply getitem2_Raise in Hget.
  - by apply setitem4_Raise in Hset.
Qed.

(** When the loop nest returns, every label of the grid selected a channel. *)
Lemma scatter_into_Ok_labels (out out' src : ndarray Z) (B C H W h w : Z) :
  shape src = [h; w] → Z.of_nat (length (flat src)) = h * w →
  shape out = [B; C; H; W] →
  scatter_into out src = Ok out' →
  ∀ i j, 0 ≤ i < h → 0 ≤ j < w → - C ≤ label_at src w i j < C.
Proof.
  intros Hsh Hlen Hosh. unfold scatter_into. rewrite Hsh. intros Hfold i j Hi Hj.
  set (I := λ o : ndarray Z, shape o = [B; C; H; W]).
  assert (∀ i (s : ndarray Z) (j : Z) (s' : ndarray Z), I s →
            (getitem2 src i j ≫= λ lbl, setitem4 s 0 lbl i j 1) = Ok s' → I s')
    as Hbody.
  { intros i1 s j1 s' Hs (lbl & _ & Hset)%bind_Ok.
    by destruct (setitem4_Ok _ _ _ _ _ _ _ _ _ _ _ Hs Hset). }
  apply (foldM_Ok_each I) in Hfold as [_ Hrows]; [| |exact Hosh].
  - destruct (Hrows i) as (s1 & s2 & Hs1 & Hrow); [apply elem_of_seqZ; lia|].
    apply (foldM_Ok_each I) in Hrow as [_ Hcols]; [|apply Hbody|exact Hs1].
    destruct (Hcols j) as (s3 & s4 & Hs3 & Hpix); [apply elem_of_seqZ; lia|].
    apply bind_Ok in Hpix as (lbl & Hget & Hset).
    rewrite (getitem2_label src h w Hsh Hlen i j Hi Hj) in Hget.
    injection Hget as <-.
    by destruct (setitem4_Ok _ _ _ _ _ _ _ _ _ _ _ Hs3 Hset).
  - intros s i1 s' Hs Hrow.
    by apply (foldM_Ok_each I) in Hrow as [Hs' _]; [|apply Hbody|].
Qed.

(** C5, as the code behaves: on a well-formed grid, a label below -151 or at
    least 151 makes [scatter] raise [IndexError]; the labels -151 .. -1 raise
    nothing, they select channel [label + 151]. *)
Theorem scatter_label_out_of_range (src : ndarray Z) (h w : Z) :
  shape src = [h; w] → 0 ≤ h → 0 ≤ w →
  Z.of_nat (length (flat src)) = h * w →
  ((∃ v, v ∈ flat src ∧ (v < -151 ∨ 151 ≤ v)) →
   scatter src = Raise IndexError) ∧
  (h ≤ 256 → w ≤ 256 → (∀ v, v ∈ flat src → -151 ≤ v < 151) →
   ∃ out, scatter src = Ok out ∧
     ∀ i j, 0 ≤ i < h → 0 ≤ j < w →
       ∃ lbl, getitem2 src i j = Ok lbl ∧
              getitem4 out 0 (if decide (lbl < 0) then lbl + 151 else lbl) i j
              = Ok 1).
Proof.
  intros Hsh Hh Hw Hlen. split.
  - intros (v & Hv & Hbad).
    destruct (scatter src) as [out|e] eqn:Hscatter.
    + exfalso. unfold scatter in Hscatter.
      destruct (label_at_elem_of src h w v Hh Hw Hlen Hv) as (i & j & Hi & Hj & Hlbl).
      pose proof (scatter_into_Ok_labels (np_zeros [1; 151; 256; 256]) out src
                    1 151 256 256 h w Hsh Hlen eq_refl Hscatter i j Hi Hj)
        as Hrange.
      lia.
    + f_equal. by apply (scatter_into_Raise _ src h w) in Hscatter.
  - intros Hh' Hw' Hval.
    destruct (scatter_Ok src h w Hsh Hlen ltac:(lia) ltac:(lia) Hval)
      as (out & Hscatter & Hinv).
    exists out. split; [exact Hscatter|]. intros i j Hi Hj.
    exists (label_at src w i j).
    split; [by apply (getitem2_label src h w)|].
    assert (label_at src w i j ∈ flat src) as Hin
      by (by apply (elem_of_label_at src h w)).
    pose proof (Hval _ Hin) as Hrange.
    rewrite (getitem4_scattered 151 256 256 src w h 0 out _ i j Hinv);
      [|case_decide; lia|lia|lia].
    rewrite bool_decide_eq_true_2; [done|].
    unfold channel_of. lia.
Qed.

Lemma scatter_label_out_of_range_witness :
  let src := NdArray [1; 2] [151; -1] in
  ((∃ v, v ∈ flat src ∧ (v < -151 ∨ 151 ≤ v)) →
   scatter src = Raise IndexError) ∧
  (1 ≤ 256 → 2 ≤ 256 → (∀ v, v ∈ flat src → -151 ≤ v < 151) →
   ∃ out, scatter src = Ok out ∧
     ∀ i j, 0 ≤ i < 1 → 0 ≤ j < 2 →
       ∃ lbl, getitem2 src i j = Ok lbl ∧
              getitem4 out 0 (if decide (lbl < 0) then lbl + 151 else lbl) i j
              = Ok 1).
Proof.
  apply (scatter_label_out_of_range (NdArray [1; 2] [151; -1]) 1 2).
  - reflexivity.
  - lia.
  - lia.
  - reflexivity.
Defined.

(** C5 as stated fails: the grid [[-1]] holds a label outside [0, 151), yet
    [scatter] returns, with channel 150 set at the pixel. *)
Lemma scatter_negative_label_silent :
  let src := NdArray [1; 1] [-1] in
  (-1) ∈ flat src ∧ ¬ (0 ≤ -1 < 151) ∧
  scatter src ≠ Raise IndexError ∧
  ∃ out, scatter src = Ok out ∧ getitem4 out 0 150 0 0 = Ok 1.
Proof.
  cbn zeta. split; [cbn [flat]; by left|]. split; [lia|].
  destruct (scatter_Ok (NdArray [1; 1] [-1]) 1 1 eq_refl eq_refl
              ltac:(lia) ltac:(lia)) as (out & Hscatter & Hinv).
  { cbn [flat]. intros v ->%list_elem_of_singleton. lia. }
  rewrite Hscatter. split; [congruence|]. exists out. split; [done|].
  by rewrite (getitem4_scattered 151 256 256 _ 1 1 0 out 150 0 0 Hinv)
    by lia.
Qed.

(** ** [CocosnetModel.predict] *)

Section Predict.
Context {T Inp Pred : Type} (self : CocosnetModel T Inp Pred).

Lemma dict_getitem_Ok {V} (d : gmap string V) (key : string) (v : V) :
  dict_getitem d key = Ok v ↔ d !! key = Some v.
Proof. unfold dict_getitem. destruct (d !! key); split; congruence. Qed.

Lemma list_getitem0_Ok {V} (l : list V) (v : V) :
  list_getitem0 l = Ok v ↔ l !! 0%nat = Some v.
Proof. destruct l; simpl; split; congruence. Qed.

Lemma predict_body_Ok (results results' : list Pred) (inp : Inp) :
  predict_body self results inp = Ok results' ↔
  ∃ result, prediction_of self inp result ∧ results' = results ++ [result].
Proof.
  unfold predict_body, prediction_of. split.
  - intros (fed & Hfed & H)%bind_Ok.
    apply bind_Ok in H as (inp0 & Hinp0 & H).
    apply bind_Ok in H as (corr_out & Hcorr & H).
    apply bind_Ok in H as (warped & Hwarped & H).
    apply bind_Ok in H as (inp0' & Hinp0' & H).
    apply bind_Ok in H as (semantics & Hsem & H).
    apply bind_Ok in H as (gen_input & Hcat & H).
    apply bind_Ok in H as (result & Hgen & [= <-]).
    rewrite Hinp0 in Hinp0'. injection Hinp0' as <-.
    apply list_getitem0_Ok in Hinp0.
    apply dict_getitem_Ok in Hwarped, Hsem.
    exists result. split; [|done].
    by exists fed, inp0, corr_out, warped, semantics, gen_input.
  - intros (result & (fed & inp0 & corr_out & warped & semantics & gen_input &
      Hfed & Hinp0 & Hcorr & Hwarped & Hsem & Hcat & Hgen) & ->).
    apply list_getitem0_Ok in Hinp0.
    apply dict_getitem_Ok in Hwarped, Hsem.
    rewrite Hfed. simpl. rewrite Hinp0. simpl. rewrite Hcorr. simpl.
    rewrite Hwarped. simpl. rewrite Hsem. simpl. rewrite Hcat. simpl.
    by rewrite Hgen.
Qed.

Lemma predict_loop_Ok (inputs : list Inp) :
  ∀ acc results,
    foldM (predict_body self) inputs acc = Ok results ↔
    ∃ new, results = acc ++ new ∧ Forall2 (prediction_of self) inputs new.
Proof.
  induction inputs as [|inp inputs IH]; intros acc results; simpl.
  - split.
    + intros [= <-]. exists []. by rewrite app_nil_r.
    + intros (new & -> & ->%Forall2_nil_inv_l). by rewrite app_nil_r.
  - rewrite bind_Ok. split.
    + intros (acc' & (r & Hr & ->)%predict_body_Ok & (new & -> & Hnew)%IH).
      exists (r :: new). rewrite <- app_assoc. split; [done|]. by constructor.
    + intros (new & -> & (r & new' & Hr & Hnew & ->)%Forall2_cons_inv_l).
      exists (acc ++ [r]). split.
      * apply predict_body_Ok. eauto.
      * apply IH. exists new'. by rewrite <- app_assoc.
Qed.

(** The loop only ever appends: running it from [acc] is running it from
    the empty list and putting [acc] in front. *)
Lemma predict_body_acc (acc : list Pred) (inp : Inp) :
  predict_body self acc inp =
  predict_body self [] inp ≫= λ new, Ok (acc ++ new).
Proof.
  unfold predict_body.
  destruct (corr_fit_to_input (correspondence self) inp) as [fed|];
    cbn; [|reflexivity].
  destruct (list_getitem0 fed) as [inp0|]; cbn; [|reflexivity].
  destruct (corr_predict (correspondence self) inp0) as [corr_out|];
    cbn; [|reflexivity].
  destruct (dict_getitem corr_out _) as [warped|]; cbn; [|reflexivity].
  destruct (dict_getitem inp0 _) as [semantics|]; cbn; [|reflexivity].
  destruct (np_concatenate_axis1 warped semantics) as [gen_input|];
    cbn; [|reflexivity].
  destruct (gen_predict (generator self) gen_input) as [r|];
    cbn; reflexivity.
Qed.

Lemma predict_loop_acc (inputs : list Inp) :
  ∀ acc,
    foldM (predict_body self) inputs acc =
    foldM (predict_body self) inputs [] ≫= λ new, Ok (acc ++ new).
Proof.
  induction inputs as [|inp inputs IH]; intros acc; simpl.
  - by rewrite app_nil_r.
  - rewrite (predict_body_acc acc inp).
    destruct (predict_body self [] inp) as [first|]; cbn; [|reflexivity].
    rewrite (IH (acc ++ first)), (IH first).
    destruct (foldM (predict_body self) inputs []) as [new|]; cbn;
      [|reflexivity].
    by rewrite <- app_assoc.
Qed.

End Predict.

(** C2: [predict] returns a list exactly when every sample has a prediction
    in the sense above; the list then has one prediction per sample, in input
    order, and a longer input list is processed one sample after the other,
    each prediction appended behind the earlier ones. *)
Theorem predict_one_prediction_per_sample {T Inp Pred}
    (self : CocosnetModel T Inp Pred) (inputs : list Inp) (results : list Pred) :
  (predict self inputs = Ok results ↔
   Forall2 (prediction_of self) inputs results) ∧
  (predict self inputs = Ok results →
   length results = length inputs ∧
   ∀ (i : nat) (inp : Inp), inputs !! i = Some inp →
     ∃ result, results !! i = Some result ∧ prediction_of self inp result) ∧
  (∀ more : list Inp,
     predict self (inputs ++ more) =
     predict self inputs ≫= λ first,
       predict self more ≫= λ rest, Ok (first ++ rest)).
Proof.
  assert (predict self inputs = Ok results ↔
          Forall2 (prediction_of self) inputs results) as Hiff.
  { unfold predict. rewrite predict_loop_Ok. split.
    - by intros (new & -> & Hnew).
    - intros Hall. by exists results. }
  split; [exact Hiff|]. split.
  - intros Hall%Hiff. split; [symmetry; by eapply Forall2_length|].
    intros i inp Hi.
    destruct (Forall2_lookup_l _ _ _ _ _ Hall Hi) as (r & Hr & Hp). eauto.
  - intros more. unfold predict. rewrite foldM_app.
    destruct (foldM (predict_body self) inputs []) as [first|]; [|done].
    simpl. apply predict_loop_acc.
Qed.

Lemma predict_one_prediction_per_sample_witness :
  let inputs := [NdArray [1; 2; 1; 1] [8; 9]; NdArray [1; 1; 1; 1] [5]] in
  let results := [NdArray [1; 3; 1; 1] [7; 8; 9]; NdArray [1; 2; 1; 1] [7; 5]] in
  predict demo_model inputs = Ok results ∧
  length results = length inputs ∧
  ∀ (i : nat) (inp : ndarray Z), inputs !! i = Some inp →
    ∃ result, results !! i = Some result ∧ prediction_of demo_model inp result.
Proof.
  cbn zeta. split; [vm_compute; reflexivity|].
  apply (proj1 (proj2 (predict_one_prediction_per_sample demo_model
    [NdArray [1; 2; 1; 1] [8; 9]; NdArray [1; 1; 1; 1] [5]]
    [NdArray [1; 3; 1; 1] [7; 8; 9]; NdArray [1; 2; 1; 1] [7; 5]]))).
  vm_compute. reflexivity.
Defined.

(** ** The concatenation inside [predict] *)

Lemma np_concatenate_axis1_agree {A} (a b : ndarray A) (d0 d1 e1 : Z)
    (rest : list Z) :
  shape a = d0 :: d1 :: rest → shape b = d0 :: e1 :: rest →
  np_concatenate_axis1 a b =
  Ok (NdArray (d0 :: (d1 + e1) :: rest)
        (interleave (Z.to_nat d0)
           (Z.to_nat (d1 * size_of rest)) (Z.to_nat (e1 * size_of rest))
           (flat a) (flat b))).
Proof.
  intros Ha Hb. unfold np_concatenate_axis1. rewrite Ha, Hb.
  by rewrite decide_True.
Qed.

Lemma np_concatenate_axis1_disagree {A} (a b : ndarray A) (d0 d1 : Z)
    (rest : list Z) :
  shape a = d0 :: d1 :: rest → (∀ e1, shape b ≠ d0 :: e1 :: rest) →
  np_concatenate_axis1 a b = Raise ValueError.
Proof.
  intros Ha Hb. unfold np_concatenate_axis1. rewrite Ha.
  destruct (shape b) as [|e0 [|e1 rest']]; [done..|].
  rewrite decide_False; [done|]. intros [-> ->]. by apply (Hb e1).
Qed.

Lemma predict_body_concatenate_Raise {T Inp Pred}
    (self : CocosnetModel T Inp Pred) (results : list Pred) (inp : Inp)
    (fed : list (gmap string (ndarray T)))
    (inp0 corr_out : gmap string (ndarray T)) (warped semantics : ndarray T)
    (e : exn) :
  corr_fit_to_input (correspondence self) inp = Ok fed →
  fed !! 0%nat = Some inp0 →
  corr_predict (correspondence self) inp0 = Ok corr_out →
  corr_out !! key_of_warped_reference (correspondence self) = Some warped →
  inp0 !! key_of_input_semantics (correspondence self) = Some semantics →
  np_concatenate_axis1 warped semantics = Raise e →
  predict_body self results inp = Raise e.
Proof.
  intros Hfed Hinp0%list_getitem0_Ok Hcorr Hwarped%dict_getitem_Ok
    Hsem%dict_getitem_Ok Hcat.
  unfold predict_body. rewrite Hfed. cbn. rewrite Hinp0. cbn.
  rewrite Hcorr. cbn. rewrite Hwarped. cbn. rewrite Hsem. cbn.
  by rewrite Hcat.
Qed.

(** C4, as the code behaves: the concatenation is along axis 1, so two
    tensors that agree on every other axis are concatenated whatever their
    channel counts, the result having the sum of the two; when the warped
    reference has rank at least 2 and the input semantics do not agree with
    it on the batch axis, on a spatial axis or in rank, the concatenation
    raises [ValueError]; an exception of the concatenation for one sample is
    the outcome of [predict] for the whole list, whatever was predicted
    before; a warped reference of rank 0 raises [ValueError] and one of rank 1
    numpy's [AxisError], whatever the input semantics are; and so the
    concatenation returns exactly when both tensors have rank at least 2 and
    agree on every axis but axis 1. *)
Theorem concatenate_along_channel_axis {T Inp Pred}
    (self : CocosnetModel T Inp Pred) (warped semantics : ndarray T) :
  (∀ d0 d1 e1 rest,
     shape warped = d0 :: d1 :: rest → shape semantics = d0 :: e1 :: rest →
     ∃ gen_input, np_concatenate_axis1 warped semantics = Ok gen_input ∧
                  shape gen_input = d0 :: (d1 + e1) :: rest) ∧
  (∀ d0 d1 rest,
     shape warped = d0 :: d1 :: rest →
     (∀ e1, shape semantics ≠ d0 :: e1 :: rest) →
     np_concatenate_axis1 warped semantics = Raise ValueError) ∧
  (∀ e before inp after done fed inp0 corr_out,
     predict self before = Ok done →
     corr_fit_to_input (correspondence self) inp = Ok fed →
     fed !! 0%nat = Some inp0 →
     corr_predict (correspondence self) inp0 = Ok corr_out →
     corr_out !! key_of_warped_reference (correspondence self) = Some warped →
     inp0 !! key_of_input_semantics (correspondence self) = Some semantics →
     np_concatenate_axis1 warped semantics = Raise e →
     predict self (before ++ inp :: after) = Raise e) ∧
  (shape warped = [] →
     np_concatenate_axis1 warped semantics = Raise ValueError) ∧
  (∀ d, shape warped = [d] →
     np_concatenate_axis1 warped semantics = Raise AxisError) ∧
  ((∃ gen_input, np_concatenate_axis1 warped semantics = Ok gen_input) ↔
   ∃ d0 d1 e1 rest,
     shape warped = d0 :: d1 :: rest ∧ shape semantics = d0 :: e1 :: rest).
Proof.
  split; [|split; [|split; [|split; [|split]]]].
  - intros d0 d1 e1 rest Ha Hb. eexists. split.
    + by apply np_concatenate_axis1_agree.
    + reflexivity.
  - intros d0 d1 rest. apply np_concatenate_axis1_disagree.
  - intros e before inp after done fed inp0 corr_out
      Hbefore Hfed Hinp0 Hcorr Hwarped Hsem Hcat.
    unfold predict in *. rewrite foldM_app, Hbefore. cbn.
    by rewrite (predict_body_concatenate_Raise self done inp fed inp0 corr_out
                  warped semantics e).
  - intros Ha. unfold np_concatenate_axis1. by rewrite Ha.
  - intros d Ha. unfold np_concatenate_axis1. by rewrite Ha.
  - split.
    + intros [gen_input Hcat]. unfold np_concatenate_axis1 in Hcat.
      destruct (shape warped) as [|d0 [|d1 rest]]; [discriminate..|].
      destruct (shape semantics) as [|e0 [|e1 rest']]; [discriminate..|].
      destruct (decide (d0 = e0 ∧ rest = rest')) as [[-> ->]|];
        [|discriminate].
      by exists e0, d1, e1, rest'.
    + intros (d0 & d1 & e1 & rest & Ha & Hb). eexists.
      by apply (np_concatenate_axis1_agree warped semantics d0 d1 e1 rest).
Qed.

Lemma concatenate_along_channel_axis_witness :
  let warped := NdArray [1; 1; 1; 1] [7] in
  let narrow := NdArray [1; 2; 1; 1] [8; 9] in
  let wide := NdArray [1; 2; 1; 2] [1; 2; 3; 4] in
  (∃ gen_input, np_concatenate_axis1 warped narrow = Ok gen_input ∧
                shape gen_input = [1; 1 + 2; 1; 1]) ∧
  np_concatenate_axis1 warped wide = Raise ValueError ∧
  np_concatenate_axis1 (NdArray [] [7]) narrow = Raise ValueError ∧
  np_concatenate_axis1 (NdArray [2] [7; 8]) narrow = Raise AxisError ∧
  predict demo_model ([narrow] ++ wide :: [narrow]) = Raise ValueError.
Proof.
  cbn zeta.
  pose proof (concatenate_along_channel_axis demo_model
                (NdArray [1; 1; 1; 1] [7]) (NdArray [1; 2; 1; 1] [8; 9]))
    as (Hagree & _).
  pose proof (concatenate_along_channel_axis demo_model
                (NdArray [1; 1; 1; 1] [7]) (NdArray [1; 2; 1; 2] [1; 2; 3; 4]))
    as (_ & Hdisagree & Habort & _).
  pose proof (concatenate_along_channel_axis demo_model
                (NdArray [] [7]) (NdArray [1; 2; 1; 1] [8; 9]))
    as (_ & _ & _ & Hscalar & _).
  pose proof (concatenate_along_channel_axis demo_model
                (NdArray [2] [7; 8]) (NdArray [1; 2; 1; 1] [8; 9]))
    as (_ & _ & _ & _ & Hvector & _).
  split; [exact (Hagree 1 1 2 [1; 1] eq_refl eq_refl)|].
  assert (np_concatenate_axis1 (NdArray [1; 1; 1; 1] [7])
            (NdArray [1; 2; 1; 2] [1; 2; 3; 4]) = Raise ValueError) as Hraise.
  { apply (Hdisagree 1 1 [1; 1] eq_refl). intros e1. cbn. congruence. }
  split; [exact Hraise|].
  split; [exact (Hscalar eq_refl)|].
  split; [exact (Hvector 2 eq_refl)|].
  apply (Habort ValueError [NdArray [1; 2; 1; 1] [8; 9]]
           (NdArray [1; 2; 1; 2] [1; 2; 3; 4]) [NdArray [1; 2; 1; 1] [8; 9]]
           [NdArray [1; 3; 1; 1] [7; 8; 9]]
           [{[ "input_semantics" := NdArray [1; 2; 1; 2] [1; 2; 3; 4] ]}]
           {[ "input_semantics" := NdArray [1; 2; 1; 2] [1; 2; 3; 4] ]}
           {[ "warped" := NdArray [1; 1; 1; 1] [7] ]}).
  - vm_compute. reflexivity.
  - reflexivity.
  - reflexivity.
  - reflexivity.
  - vm_compute. reflexivity.
  - vm_compute. reflexivity.
  - exact Hraise.
Defined.

(** C4 as stated fails: a one-channel warped reference and a two-channel
    input-semantics tensor have mismatched channel counts, and both the
    concatenation and [predict] return normally. *)
Lemma concatenate_mismatched_channels_ok :
  let warped := NdArray [1; 1; 1; 1] [7] in
  let semantics := NdArray [1; 2; 1; 1] [8; 9] in
  shape warped !! 1%nat ≠ shape semantics !! 1%nat ∧
  np_concatenate_axis1 warped semantics = Ok (NdArray [1; 3; 1; 1] [7; 8; 9]) ∧
  predict demo_model [semantics] = Ok [NdArray [1; 3; 1; 1] [7; 8; 9]].
Proof.
  cbn zeta. split; [cbn; congruence|]. split; vm_compute; reflexivity.
Qed.

(** ** [_get_batch_input]: which preprocessor sees which data channel *)

Section GetBatchInput.
Context {Obj Ann Ident Data Meta Pred Metric Presenter : Type}.
Context (env : Collaborators Obj Ann Ident Data Meta Pred Metric Presenter).
Context (self : CocosnetEvaluator Ann Pred Metric) (h : heap Obj).
Context (batch_annotation : list Ann).

Lemma mapM_Ok {A B} (f : A → result B) (l : list A) (k : list B) :
  mapM f l = Ok k ↔ Forall2 (λ x y, f x = Ok y) l k.
Proof.
  revert k. induction l as [|x l IH]; intros k; simpl.
  - split; [intros [= <-]; constructor|by intros ->%Forall2_nil_inv_l].
  - split.
    + intros (y & Hy & (k' & Hk' & [= <-])%bind_Ok)%bind_Ok.
      constructor; [done|]. by apply IH.
    + intros (y & k' & Hy & Hk' & ->)%Forall2_cons_inv_l.
      rewrite Hy. cbn. apply IH in Hk'. by rewrite Hk'.
Qed.

Lemma parity_preprocessor (k : nat) :
  (if decide (Z.of_nat k `mod` 2 ≠ 0)
   then preprocessor_image self else preprocessor_mask self) =
  preprocessor_for self k.
Proof.
  unfold preprocessor_for. destruct (Nat.even k) eqn:Hk.
  - apply Nat.even_spec in Hk as [m ->]. rewrite decide_False; [done|].
    replace (Z.of_nat (2 * m)) with (Z.of_nat m * 2) by lia.
    rewrite Z.mod_mul by lia. lia.
  - assert (Nat.odd k = true) as [m ->]%Nat.odd_spec
      by (by rewrite <- Nat.negb_even, Hk).
    rewrite decide_True; [done|].
    replace (Z.of_nat (2 * m + 1)) with (1 + Z.of_nat m * 2) by lia.
    rewrite Z.mod_add, Z.mod_1_l by lia. lia.
Qed.

Lemma process_channel_Ok (i k : nat)
    (bi bi' : list (DataRepresentation (list Data) Meta Ident))
    (calls calls' : list (process_call Data))
    (input : DataRepresentation (list Data) Meta Ident) (x : Data) :
  bi !! i = Some input → data input !! k = Some x →
  process_channel env self h batch_annotation i (bi, calls) k = Ok (bi', calls') →
  ∃ y, processed_by env h batch_annotation (preprocessor_for self k) x y ∧
       bi' = <[i := {| data := <[k := y]> (data input);
                       metadata := metadata input;
                       identifier := identifier input |}]> bi ∧
       calls' = calls ++ [ProcessCall (preprocessor_for self k) i k x].
Proof.
  intros Hinput Hx. unfold process_channel.
  rewrite Hinput. cbn. rewrite Hx. cbn. rewrite parity_preprocessor.
  intros (processed & Hproc & (first & Hfirst%list_getitem0_Ok & [= <- <-])%bind_Ok)%bind_Ok.
  exists (data first). split; [|done]. by exists processed, first.
Qed.

Lemma process_channels_Ok (i : nat) (todo : list Data) :
  ∀ (done : list Data)
    (bi bi' : list (DataRepresentation (list Data) Meta Ident))
    (calls calls' : list (process_call Data))
    (input : DataRepresentation (list Data) Meta Ident),
    bi !! i = Some input → data input = done ++ todo →
    foldM (process_channel env self h batch_annotation i)
          (seq (length done) (length todo)) (bi, calls) = Ok (bi', calls') →
    ∃ ys, length ys = length todo ∧
      bi' = <[i := {| data := done ++ ys; metadata := metadata input;
                      identifier := identifier input |}]> bi ∧
      calls' = calls ++ channel_calls self i (length done) todo ∧
      ∀ k x, todo !! k = Some x →
        ∃ y, ys !! k = Some y ∧
             processed_by env h batch_annotation
               (preprocessor_for self (length done + k)) x y.
Proof.
  induction todo as [|x todo IH];
    intros done bi bi' calls calls' input Hinput Hdata; simpl.
  - intros [= <- <-]. exists []. split; [done|]. split.
    + symmetry. apply list_insert_id. rewrite Hinput. f_equal.
      destruct input as [d m idn]. simpl in *. by rewrite Hdata.
    + split; [by rewrite app_nil_r|]. intros k x Hk. by rewrite lookup_nil in Hk.
  - intros ([bi1 calls1] & Hstep & Hrest)%bind_Ok.
    assert (data input !! length done = Some x) as Hx
      by (rewrite Hdata; apply list_lookup_middle; done).
    destruct (process_channel_Ok i (length done) bi bi1 calls calls1 input x
                Hinput Hx Hstep) as (y & Hy & -> & ->).
    pose proof (lookup_lt_Some _ _ _ Hinput) as Hlt.
    rewrite Hdata in Hrest.
    replace (<[length done := y]> (done ++ x :: todo)) with ((done ++ [y]) ++ todo)
      in Hrest
      by (rewrite <- (Nat.add_0_r (length done)), insert_app_r, <- app_assoc; done).
    replace (S (length done)) with (length (done ++ [y])) in Hrest
      by (rewrite length_app; simpl; lia).
    eapply IH in Hrest as (ys & Hlen & -> & -> & Hys);
      [|by apply list_lookup_insert_eq|done].
    exists (y :: ys). split; [simpl; by rewrite Hlen|]. split.
    { simpl. rewrite list_insert_insert_eq, <- app_assoc. done. }
    split.
    { rewrite <- app_assoc. f_equal. unfold channel_calls. simpl.
      rewrite Nat.add_0_r. f_equal. apply imap_ext. intros k z _. simpl.
      rewrite length_app. simpl.
      by replace (length done + 1 + k)%nat with (length done + S k)%nat by lia. }
    intros [|k] z Hk; simpl in Hk.
    { injection Hk as <-. exists y. split; [done|]. by rewrite Nat.add_0_r. }
    destruct (Hys k z Hk) as (y' & Hy' & Hp). exists y'. split; [done|].
    rewrite length_app in Hp. simpl in Hp.
    by replace (length done + S k)%nat with (length done + 1 + k)%nat by lia.
Qed.

Lemma process_samples_Ok
    (todo : list (DataRepresentation (list Data) Meta Ident)) :
  ∀ (done bi' : list (DataRepresentation (list Data) Meta Ident))
    (calls calls' : list (process_call Data)),
    foldM (λ st i,
        input ← from_option Ok (Raise IndexError) (st.1 !! i);
        foldM (process_channel env self h batch_annotation i)
              (seq 0 (length (data input))) st)
      (seq (length done) (length todo)) (done ++ todo, calls) = Ok (bi', calls') →
    ∃ ps, length ps = length todo ∧
      bi' = done ++ ps ∧
      calls' = calls ++
        concat (imap (λ i r, channel_calls self (length done + i) 0 (data r)) todo) ∧
      ∀ i r, todo !! i = Some r →
        ∃ p, ps !! i = Some p ∧
             metadata p = metadata r ∧ identifier p = identifier r ∧
             length (data p) = length (data r) ∧
             ∀ k x, data r !! k = Some x →
               ∃ y, data p !! k = Some y ∧
                    processed_by env h batch_annotation
                      (preprocessor_for self k) x y.
Proof.
  induction todo as [|r todo IH]; intros done bi' calls calls'; simpl.
  - intros [= <- <-]. exists []. rewrite !app_nil_r. repeat split; done.
  - intros ([bi1 calls1] & Hstep & Hrest)%bind_Ok.
    assert ((done ++ r :: todo) !! length done = Some r) as Hr
      by (by apply list_lookup_middle).
    cbn in Hstep. rewrite Hr in Hstep. cbn in Hstep.
    apply (process_channels_Ok (length done) (data r) [] _ _ _ _ r Hr eq_refl)
      in Hstep as (ys & Hlen & -> & -> & Hys).
    simpl in Hrest.
    set (p := {| data := ys; metadata := metadata r;
                 identifier := identifier r |}) in *.
    replace (<[length done := p]> (done ++ r :: todo)) with ((done ++ [p]) ++ todo)
      in Hrest
      by (rewrite <- (Nat.add_0_r (length done)), insert_app_r, <- app_assoc; done).
    replace (S (length done)) with (length (done ++ [p])) in Hrest
      by (rewrite length_app; simpl; lia).
    apply IH in Hrest as (ps & Hlen' & -> & -> & Hps).
    exists (p :: ps). split; [simpl; by rewrite Hlen'|].
    split; [by rewrite <- app_assoc|]. split.
    { rewrite <- !app_assoc. f_equal. rewrite Nat.add_0_r. f_equal. f_equal.
      apply imap_ext. intros i z _. simpl. rewrite length_app. simpl.
      by replace (length done + 1 + i)%nat with (length done + S i)%nat by lia. }
    intros [|i] z Hi; simpl in Hi.
    + injection Hi as <-. exists p. repeat split; try done.
    + by apply Hps.
Qed.

End GetBatchInput.

(** C6: when [_get_batch_input] returns, the calls of [preprocessor.process]
    it made are, sample after sample and channel after channel, exactly one
    call per data channel, received by the mask preprocessor at even channel
    indices and by the image preprocessor at odd ones, with the channel the
    reader supplied as argument; the returned channel is what that call
    produced. *)
Theorem get_batch_input_alternates
    {Obj Ann Ident Data Meta Pred Metric Presenter : Type}
    (env : Collaborators Obj Ann Ident Data Meta Pred Metric Presenter)
    (self : CocosnetEvaluator Ann Pred Metric) (h : heap Obj)
    (batch_annotation annotated : list Ann)
    (filled : list (list (DataRepresentation (list Data) Meta Ident)))
    (batch_meta : list Meta) (batch_identifiers : list Ident)
    (calls : list (process_call Data)) :
  _get_batch_input env self h batch_annotation =
    Ok ((filled, batch_meta, batch_identifiers), annotated, calls) →
  ∃ raw processed,
    mapM (reader_call env (obj_at h (reader self)))
         (annotation_identifier env <$> batch_annotation) = Ok raw ∧
    filled = [processed] ∧ length processed = length raw ∧
    calls =
      concat (imap (λ i r,
        imap (λ k x,
          ProcessCall (if Nat.even k then preprocessor_mask self
                       else preprocessor_image self) i k x) (data r)) raw) ∧
    ∀ i r, raw !! i = Some r →
      ∃ p, processed !! i = Some p ∧ length (data p) = length (data r) ∧
        ∀ k x, data r !! k = Some x →
          ∃ y, data p !! k = Some y ∧
               processed_by env h annotated
                 (if Nat.even k then preprocessor_mask self
                  else preprocessor_image self) x y.
Proof.
  unfold _get_batch_input.
  intros (raw & Hraw & (annotated' & _ & H)%bind_Ok)%bind_Ok.
  apply bind_Ok in H as ([processed calls'] & Hloop & H).
  destruct (extract_image_representations env processed) as [images meta].
  injection H as <- <- <- <- <-.
  apply (process_samples_Ok env self h _ raw []) in Hloop
    as (ps & Hlen & -> & -> & Hps).
  exists raw, ps. split; [exact Hraw|]. split; [done|]. split; [done|].
  split; [done|].
  intros i r Hi. destruct (Hps i r Hi) as (p & Hp & _ & _ & Hdata & Hchan).
  exists p. split; [done|]. split; [done|]. exact Hchan.
Qed.

Lemma get_batch_input_alternates_witness :
  ∃ raw processed,
    mapM (reader_call demo_env (obj_at demo_heap (reader demo_evaluator)))
         (annotation_identifier demo_env <$> [3%nat]) = Ok raw ∧
    [[{| data := [103; -1; 102]; metadata := (); identifier := 3%nat |}]]
      = [processed] ∧
    length processed = length raw ∧
    [ProcessCall 1%nat 0%nat 0%nat 3; ProcessCall 2%nat 0%nat 1%nat 1;
     ProcessCall 1%nat 0%nat 2%nat 2] =
      concat (imap (λ i r,
        imap (λ k x,
          ProcessCall (if Nat.even k then preprocessor_mask demo_evaluator
                       else preprocessor_image demo_evaluator) i k x) (data r))
        raw) ∧
    ∀ i r, raw !! i = Some r →
      ∃ p, processed !! i = Some p ∧ length (data p) = length (data r) ∧
        ∀ k x, data r !! k = Some x →
          ∃ y, data p !! k = Some y ∧
               processed_by demo_env demo_heap [3%nat]
                 (if Nat.even k then preprocessor_mask demo_evaluator
                  else preprocessor_image demo_evaluator) x y.
Proof.
  apply (get_batch_input_alternates demo_env demo_evaluator demo_heap
           [3%nat] [3%nat] _ [()] [3%nat]).
  vm_compute. reflexivity.
Defined.

(** ** [reset] and the [metrics_results] property *)

Section Reset.
Context {Obj Ann Ident Data Meta Pred Metric Presenter : Type}.
Context (env : Collaborators Obj Ann Ident Data Meta Pred Metric Presenter).

Lemma call_Ok (method : Obj → result Obj) (r : ref) (h h' : heap Obj) :
  call method r h = Ok h' →
  next_ref h' = next_ref h ∧ ∀ r', r' ≠ r → obj_at h' r' = obj_at h r'.
Proof.
  unfold call. intros (o & _ & [= <-])%bind_Ok. split; [done|].
  intros r' Hr'. simpl. by rewrite fn_lookup_insert_ne.
Qed.

Lemma call_returns (method : Obj → result Obj) (r : ref) (h : heap Obj) :
  (∀ o, ∃ o', method o = Ok o') → ∃ h', call method r h = Ok h'.
Proof.
  intros Hm. unfold call. destruct (Hm (obj_at h r)) as [o' ->]. cbn. eauto.
Qed.

End Reset.

(** C7: [reset] returns whenever the three collaborator resets it calls do;
    when it returns, the three accumulated lists are empty, every
    collaborator attribute holds the reference it held before, no object has
    been constructed, and only the metric executor, the dataset and the
    reader have been touched. *)
Theorem reset_clears_accumulated_state
    {Obj Ann Ident Data Meta Pred Metric Presenter : Type}
    (env : Collaborators Obj Ann Ident Data Meta Pred Metric Presenter)
    (self : CocosnetEvaluator Ann Pred Metric) (h : heap Obj) :
  ((∀ o, ∃ o', metric_executor_reset env o = Ok o') →
   (∀ b o, ∃ o', dataset_reset env b o = Ok o') →
   (∀ o, ∃ o', reader_reset env o = Ok o') →
   ∃ self' h', reset env self h = Ok (self', h')) ∧
  (∀ self' h', reset env self h = Ok (self', h') →
     _annotations self' = [] ∧ _predictions self' = [] ∧
     _metrics_results self' = [] ∧
     launcher self' = launcher self ∧ reader self' = reader self ∧
     preprocessor_mask self' = preprocessor_mask self ∧
     preprocessor_image self' = preprocessor_image self ∧
     postprocessor self' = postprocessor self ∧ dataset self' = dataset self ∧
     metric_executor self' = metric_executor self ∧ model self' = model self ∧
     next_ref h' = next_ref h ∧
     ∀ r, r ≠ metric_executor self → r ≠ dataset self → r ≠ reader self →
          obj_at h' r = obj_at h r).
Proof.
  split.
  - intros Hmetric Hdataset Hreader. unfold reset.
    destruct (call_returns (metric_executor_reset env) (metric_executor self) h
                Hmetric) as [h1 ->]. cbn.
    destruct (call_returns
                (dataset_reset env (has_processors env (obj_at h1 (postprocessor self))))
                (dataset self) h1 (Hdataset _)) as [h2 ->]. cbn.
    destruct (call_returns (reader_reset env) (reader self) h2 Hreader)
      as [h3 ->]. cbn. eauto.
  - intros self' h'. unfold reset.
    intros (h1 & [Hn1 Ho1]%call_Ok & H)%bind_Ok. cbn in H.
    apply bind_Ok in H as (h2 & [Hn2 Ho2]%call_Ok & H).
    apply bind_Ok in H as (h3 & [Hn3 Ho3]%call_Ok & [= <- <-]).
    cbn. repeat (split; [done|]). split; [congruence|].
    intros r Hm Hd Hr. rewrite Ho3, Ho2, Ho1; done.
Qed.

Lemma reset_clears_accumulated_state_witness :
  ∃ self' h',
    reset demo_env demo_evaluator demo_heap = Ok (self', h') ∧
    _annotations self' = [] ∧ _predictions self' = [] ∧
    _metrics_results self' = [] ∧
    launcher self' = launcher demo_evaluator ∧
    reader self' = reader demo_evaluator ∧
    preprocessor_mask self' = preprocessor_mask demo_evaluator ∧
    preprocessor_image self' = preprocessor_image demo_evaluator ∧
    postprocessor self' = postprocessor demo_evaluator ∧
    dataset self' = dataset demo_evaluator ∧
    metric_executor self' = metric_executor demo_evaluator ∧
    model self' = model demo_evaluator ∧
    next_ref h' = next_ref demo_heap ∧
    ∀ r, r ≠ metric_executor demo_evaluator → r ≠ dataset demo_evaluator →
         r ≠ reader demo_evaluator → obj_at h' r = obj_at demo_heap r.
Proof.
  destruct (reset_clears_accumulated_state demo_env demo_evaluator demo_heap)
    as [Hreturns Hstate].
  destruct Hreturns as (self' & h' & Hreset).
  - intros o. exists 0%nat. reflexivity.
  - intros b o. exists 0%nat. reflexivity.
  - intros o. exists 0%nat. reflexivity.
  - exists self', h'. split; [exact Hreset|]. exact (Hstate self' h' Hreset).
Defined.

(** C8: reading the [metrics_results] property never returns a value:
    whatever the evaluator holds and however many frames the interpreter
    allows, the getter calls itself until the frames are used up and the
    outcome is [RecursionError]. *)
Theorem metrics_results_always_recurses
    {Obj Ann Ident Data Meta Pred Metric Presenter : Type}
    (env : Collaborators Obj Ann Ident Data Meta Pred Metric Presenter)
    (depth : nat) (self : CocosnetEvaluator Ann Pred Metric) (h : heap Obj) :
  metrics_results env depth self h = Raise RecursionError.
Proof.
  induction depth as [|depth IH]; simpl; [reflexivity|].
  rewrite IH. reflexivity.
Qed.

(** ** [from_configs]: the reader configuration *)

Lemma resolve_reader_ConfigError (data_reader_config : pyval) :
  resolve_reader data_reader_config =
    Raise (ConfigError "reader should be dict or string") ↔
  (∀ s, data_reader_config ≠ PyStr s) ∧ (∀ d, data_reader_config ≠ PyDict d).
Proof.
  unfold resolve_reader, dict_getitem.
  destruct data_reader_config as [| b | z | s | l | d].
  - split; [intros _; split; intros ? ?; discriminate|reflexivity].
  - split; [intros _; split; intros ? ?; discriminate|reflexivity].
  - split; [intros _; split; intros ? ?; discriminate|reflexivity].
  - split; [discriminate|intros [Hs _]; by destruct (Hs s)].
  - split; [intros _; split; intros ? ?; discriminate|reflexivity].
  - split; [destruct (d !! "type"); discriminate|].
    intros [_ Hd]. by destruct (Hd d).
Qed.

(** C9: once the dataset entry of the configuration has been read and the
    dataset constructed, a reader configuration that is neither a string nor
    a dict makes [from_configs] raise
    [ConfigError('reader should be dict or string')]; a string or a dict never
    reaches that [raise]: a string is itself the reader type, a dict must
    give it under ['type'] ([KeyError] otherwise), and construction goes on
    with the remaining collaborators. *)
Theorem from_configs_reader_config
    {Obj Ann Ident Data Meta Pred Metric Presenter : Type}
    (env : Collaborators Obj Ann Ident Data Meta Pred Metric Presenter)
    (h : heap Obj)
    (model_config network_info launcher_config dataset_config dataset_name
       data_reader_config data_source : pyval) (constructed : Obj) :
  py_getitem model_config "network_info" = Ok network_info →
  py_getitem model_config "launchers" ≫= py_getitem0 = Ok launcher_config →
  py_getitem model_config "datasets" ≫= py_getitem0 = Ok dataset_config →
  py_getitem dataset_config "name" = Ok dataset_name →
  py_get dataset_config "reader" (PyStr "opencv_imread") = Ok data_reader_config →
  py_get dataset_config "data_source" PyNone = Ok data_source →
  Dataset_new env dataset_config = Ok constructed →
  ((∀ s, data_reader_config ≠ PyStr s) →
   (∀ d, data_reader_config ≠ PyDict d) →
   from_configs env h model_config =
     Raise (ConfigError "reader should be dict or string")) ∧
  (∀ s, data_reader_config = PyStr s →
     resolve_reader data_reader_config = Ok (PyStr s, PyNone) ∧
     from_configs env h model_config =
       from_configs_finish env (alloc constructed h).2 network_info
         launcher_config dataset_config dataset_name data_source
         (alloc constructed h).1 (PyStr s) PyNone) ∧
  (∀ d, data_reader_config = PyDict d →
     resolve_reader data_reader_config ≠
       Raise (ConfigError "reader should be dict or string") ∧
     from_configs env h model_config =
       match d !! "type" with
       | Some data_reader_type =>
           from_configs_finish env (alloc constructed h).2 network_info
             launcher_config dataset_config dataset_name data_source
             (alloc constructed h).1 data_reader_type (PyDict d)
       | None => Raise (KeyError "type")
       end).
Proof.
  intros Hni Hlc Hdc Hname Hreader Hsource Hdataset.
  assert (from_configs env h model_config =
    resolve_reader data_reader_config ≫= λ '(t, c),
      from_configs_finish env (alloc constructed h).2 network_info
        launcher_config dataset_config dataset_name data_source
        (alloc constructed h).1 t c) as Hunfold.
  { unfold from_configs.
    rewrite Hni. cbn. rewrite Hlc. cbn. rewrite Hdc. cbn. rewrite Hname. cbn.
    rewrite Hreader. cbn. rewrite Hsource. cbn.
    unfold new. rewrite Hdataset. cbn. reflexivity. }
  split; [|split].
  - intros Hs Hd. rewrite Hunfold.
    by rewrite (proj2 (resolve_reader_ConfigError data_reader_config)).
  - intros s ->. split; [reflexivity|]. by rewrite Hunfold.
  - intros d ->. split.
    + intros [_ Hd]%resolve_reader_ConfigError. by apply (Hd d).
    + rewrite Hunfold. cbn. unfold dict_getitem. by destruct (d !! "type").
Qed.

Lemma from_configs_reader_config_witness :
  from_configs demo_env demo_heap (demo_config (PyInt 5)) =
    Raise (ConfigError "reader should be dict or string") ∧
  from_configs demo_env demo_heap (demo_config (PyStr "pillow_imread")) =
    from_configs_finish demo_env (alloc 5%nat demo_heap).2 (PyDict ∅)
      (PyDict {[ "framework" := PyStr "dlsdk" ]})
      (PyDict {[ "name" := PyStr "ADE20k"; "reader" := PyStr "pillow_imread" ]})
      (PyStr "ADE20k") PyNone (alloc 5%nat demo_heap).1
      (PyStr "pillow_imread") PyNone.
Proof.
  split.
  - apply (from_configs_reader_config demo_env demo_heap (demo_config (PyInt 5))
             (PyDict ∅) (PyDict {[ "framework" := PyStr "dlsdk" ]})
             (PyDict {[ "name" := PyStr "ADE20k"; "reader" := PyInt 5 ]})
             (PyStr "ADE20k") (PyInt 5) PyNone 5%nat);
      try (vm_compute; reflexivity); intros; discriminate.
  - apply (from_configs_reader_config demo_env demo_heap
             (demo_config (PyStr "pillow_imread"))
             (PyDict ∅) (PyDict {[ "framework" := PyStr "dlsdk" ]})
             (PyDict {[ "name" := PyStr "ADE20k";
                        "reader" := PyStr "pillow_imread" ]})
             (PyStr "ADE20k") (PyStr "pillow_imread") PyNone 5%nat);
      (vm_compute; reflexivity) || reflexivity.
Defined.

(** ** [automatic_model_search]: the weights file name *)

Section Replace.

Lemma string_length_append (s1 s2 : string) :
  String.length (s1 +:+ s2) = (String.length s1 + String.length s2)%nat.
Proof. induction s1 as [|c s1 IH]; simpl; [done|]. by rewrite IH. Qed.

Lemma append_cons (c : Ascii.ascii) (s1 s2 : string) :
  String c s1 +:+ s2 = String c (s1 +:+ s2).
Proof. reflexivity. Qed.

Lemma prefix_length (old s : string) :
  String.prefix old s = true → (String.length old ≤ String.length s)%nat.
Proof.
  revert old. induction s as [|c s IH]; intros [|a old]; simpl; try done;
    try lia.
  destruct (Ascii.ascii_dec a c); [|done]. intros H%IH. lia.
Qed.

Lemma py_contains_cons (needle : string) (c : Ascii.ascii) (s : string) :
  py_contains needle (String c s) = false ↔
  String.prefix needle (String c s) = false ∧ py_contains needle s = false.
Proof. cbn [py_contains]. apply orb_false_iff. Qed.

(** Without an occurrence of [old], [replace] changes nothing. *)
Lemma py_replace_no_occurrence (old new s : string) :
  py_contains old s = false → py_replace old new s = s.
Proof.
  unfold py_replace. induction s as [|c s IH]; [done|].
  intros [Hp Hc]%py_contains_cons. cbn [py_replace_from].
  rewrite Hp. f_equal. by apply IH.
Qed.

Lemma py_replace_from_length (old new : string) :
  String.length new = String.length old → old ≠ EmptyString →
  ∀ (s : string) (skip : nat), (skip ≤ String.length s)%nat →
    String.length (py_replace_from old new skip s) =
    (String.length s - skip)%nat.
Proof.
  intros Hlen Hold. induction s as [|c s IH]; intros skip Hskip.
  - simpl in *. lia.
  - cbn [py_replace_from]. destruct skip as [|k].
    + destruct (String.prefix old (String c s)) eqn:Hp.
      * apply prefix_length in Hp. simpl in Hp.
        assert (String.length old ≠ 0%nat) by (by destruct old).
        rewrite string_length_append, IH, Hlen by lia. simpl. lia.
      * simpl. rewrite IH by lia. lia.
    + simpl in *. rewrite IH by lia. lia.
Qed.

(** Replacing never builds a dotless word out of a text it was not already
    a prefix of. *)
Lemma prefix_dotless_replace (t : string) :
  dotless t →
  ∀ s, String.prefix t s = false →
       String.prefix t (py_replace ".xml" ".bin" s) = false.
Proof.
  unfold py_replace. induction t as [|a t IH]; intros Ht s; [by destruct s|].
  destruct Ht as [Ha Ht]. destruct s as [|c s]; [done|].
  cbn [py_replace_from].
  destruct (String.prefix ".xml" (String c s)) eqn:Hxml.
  - intros _. rewrite append_cons. cbn [String.prefix].
    destruct (Ascii.ascii_dec a _) as [->|]; [by destruct Ha|done].
  - cbn [String.prefix]. destruct (Ascii.ascii_dec a c); [|done].
    destruct t as [|b t]; [by destruct s|]. by apply IH.
Qed.

Lemma prefix_xml_replace (s : string) :
  String.prefix ".xml" s = false →
  String.prefix ".xml" (py_replace ".xml" ".bin" s) = false.
Proof.
  unfold py_replace. destruct s as [|c s]; [done|]. intros Hp.
  cbn [py_replace_from]. rewrite Hp. revert Hp.
  cbn [String.prefix]. destruct (Ascii.ascii_dec _ c); [|done].
  apply (prefix_dotless_replace "xml"). cbn. repeat split; discriminate.
Qed.

(** After the replacement no [.xml] is left. *)
Lemma py_replace_from_no_xml (s : string) :
  ∀ skip, py_contains ".xml" (py_replace_from ".xml" ".bin" skip s) = false.
Proof.
  induction s as [|c s IH]; intros skip; [done|].
  cbn [py_replace_from]. destruct skip as [|k]; [|apply IH].
  destruct (String.prefix ".xml" (String c s)) eqn:Hp.
  - rewrite !append_cons.
    repeat (apply py_contains_cons; split; [reflexivity|]). apply IH.
  - apply py_contains_cons. split; [|apply IH].
    pose proof (prefix_xml_replace _ Hp) as Hr. unfold py_replace in Hr.
    cbn [py_replace_from] in Hr. by rewrite Hp in Hr.
Qed.

(** The first occurrence is replaced and the scan goes on behind it. *)
Lemma prefix_cons (a c : Ascii.ascii) (t s : string) :
  String.prefix (String a t) (String c s) =
  if Ascii.ascii_dec a c then String.prefix t s else false.
Proof. reflexivity. Qed.

Lemma prefix_nil_r (a : Ascii.ascii) (t : string) :
  String.prefix (String a t) EmptyString = false.
Proof. reflexivity. Qed.

Lemma prefix_xml_app (p s : string) :
  p ≠ EmptyString → String.prefix ".xml" p = false →
  String.prefix ".xml" (p +:+ ".xml" +:+ s) = false.
Proof.
  intros Hne Hp.
  destruct p as [|c0 [|c1 [|c2 [|c3 p]]]]; [done|..];
    repeat (rewrite ?append_cons, ?prefix_cons, ?prefix_nil_r in *;
            change (EmptyString +:+ ".xml" +:+ s) with (".xml" +:+ s) in *;
            match goal with
            | |- context [Ascii.ascii_dec ?a ?b] =>
                destruct (Ascii.ascii_dec a b) as [E|E];
                [first [discriminate E|subst]|try reflexivity]
            end);
    try reflexivity; try exact Hp.
  by destruct p.
Qed.

Lemma py_replace_first_occurrence (p s : string) :
  py_contains ".xml" p = false →
  py_replace ".xml" ".bin" (p +:+ ".xml" +:+ s) =
  p +:+ ".bin" +:+ py_replace ".xml" ".bin" s.
Proof.
  unfold py_replace. induction p as [|c p IH]; [intros _; by destruct s|].
  intros [Hp Hc]%py_contains_cons.
  change (String c p +:+ ".xml" +:+ s) with (String c (p +:+ ".xml" +:+ s)).
  cbn [py_replace_from].
  pose proof (prefix_xml_app (String c p) s ltac:(done) Hp) as Hfull.
  change (String c p +:+ ".xml" +:+ s) with (String c (p +:+ ".xml" +:+ s))
    in Hfull.
  rewrite Hfull, (append_cons c p). f_equal. by apply IH.
Qed.

End Replace.

(** C10: the model path is the normalised ['model'] entry; the weights path
    is resolved from the ['weights'] entry, or from the model path when there
    is none; a resolved path without [.xml] is returned as it is, and one
    with [.xml] has it substituted by [.bin]: the first occurrence is
    replaced and so are the later ones, the length is kept and no [.xml] is
    left. *)
Theorem automatic_model_search_weights
    (str_Path get_path : pyval → result string)
    (d : gmap string pyval) (m : pyval) (model resolved : string) :
  d !! "model" = Some m → str_Path m = Ok model →
  get_path (default (PyStr model) (d !! "weights")) = Ok resolved →
  ∃ weights,
    automatic_model_search str_Path get_path (PyDict d) = Ok (model, weights) ∧
    (d !! "weights" = None → get_path (PyStr model) = Ok resolved) ∧
    (py_contains ".xml" resolved = false → weights = resolved) ∧
    (py_contains ".xml" resolved = true →
     weights = py_replace ".xml" ".bin" resolved) ∧
    String.length weights = String.length resolved ∧
    py_contains ".xml" weights = false ∧
    ∀ p s, resolved = p +:+ ".xml" +:+ s → py_contains ".xml" p = false →
           weights = p +:+ ".bin" +:+ py_replace ".xml" ".bin" s.
Proof.
  intros Hm Hmodel Hresolved.
  exists (py_replace ".xml" ".bin" resolved).
  assert (py_contains ".xml" resolved = false →
          py_replace ".xml" ".bin" resolved = resolved) as Hsame
    by apply py_replace_no_occurrence.
  split.
  - unfold automatic_model_search. cbn. unfold dict_getitem. rewrite Hm. cbn.
    rewrite Hmodel. cbn. rewrite Hresolved. cbn.
    destruct (py_contains ".xml" resolved); [done|]. by rewrite Hsame.
  - split; [by intros Hw; rewrite Hw in Hresolved|].
    split; [exact Hsame|]. split; [done|]. split.
    + unfold py_replace. rewrite py_replace_from_length; [lia|done|done|lia].
    + split; [apply py_replace_from_no_xml|].
      intros p s -> Hp. by apply py_replace_first_occurrence.
Qed.

Lemma automatic_model_search_weights_witness :
  automatic_model_search demo_path demo_path
    (PyDict {[ "model" := PyStr "public/cocosnet/corr.xml" ]}) =
    Ok ("public/cocosnet/corr.xml", "public/cocosnet/corr.bin") ∧
  ∃ weights,
    automatic_model_search demo_path demo_path
      (PyDict {[ "model" := PyStr "public/cocosnet/corr.xml" ]}) =
      Ok ("public/cocosnet/corr.xml", weights) ∧
    (({[ "model" := PyStr "public/cocosnet/corr.xml" ]} : gmap string pyval)
       !! "weights" = None →
     demo_path (PyStr "public/cocosnet/corr.xml") =
       Ok "public/cocosnet/corr.xml") ∧
    (py_contains ".xml" "public/cocosnet/corr.xml" = false →
     weights = "public/cocosnet/corr.xml") ∧
    (py_contains ".xml" "public/cocosnet/corr.xml" = true →
     weights = py_replace ".xml" ".bin" "public/cocosnet/corr.xml") ∧
    String.length weights = String.length "public/cocosnet/corr.xml" ∧
    py_contains ".xml" weights = false ∧
    ∀ p s, "public/cocosnet/corr.xml" = p +:+ ".xml" +:+ s →
           py_contains ".xml" p = false →
           weights = p +:+ ".bin" +:+ py_replace ".xml" ".bin" s.
Proof.
  split; [vm_compute; reflexivity|].
  apply (automatic_model_search_weights demo_path demo_path
           {[ "model" := PyStr "public/cocosnet/corr.xml" ]}
           (PyStr "public/cocosnet/corr.xml")
           "public/cocosnet/corr.xml" "public/cocosnet/corr.xml").
  - vm_compute. reflexivity.
  - reflexivity.
  - vm_compute. reflexivity.
Defined.

(** * Further properties of the code *)

(** ** [scatter] beyond the one-hot case *)

Lemma setitem4_Ok_flat {A} (a a' : ndarray A) (B C H W b c i j : Z) (v : A) :
  shape a = [B; C; H; W] → setitem4 a b c i j v = Ok a' →
  shape a' = [B; C; H; W] ∧ - C ≤ c < C ∧ - H ≤ i < H ∧ - W ≤ j < W ∧
  ∃ k, flat a' = <[k := v]> (flat a).
Proof.
  intros Hsh. unfold setitem4. rewrite Hsh.
  destruct (norm_index B b) as [b'|] eqn:Hb; simpl; [|congruence].
  destruct (norm_index C c) as [c'|] eqn:Hc; simpl; [|congruence].
  destruct (norm_index H i) as [i'|] eqn:Hi; simpl; [|congruence].
  destruct (norm_index W j) as [j'|] eqn:Hj; simpl; [|congruence].
  intros [= <-]. apply norm_index_Ok in Hc, Hi, Hj.
  split; [done|]. repeat (split; [lia|]). simpl. eauto.
Qed.

(** When the loop nest returns, every pixel of the grid was written at its
    own row and column of the output. *)
Lemma scatter_into_Ok_pixels (out out' src : ndarray Z) (B C H W h w : Z) :
  shape src = [h; w] → shape out = [B; C; H; W] →
  scatter_into out src = Ok out' →
  ∀ i j, 0 ≤ i < h → 0 ≤ j < w → - H ≤ i < H ∧ - W ≤ j < W.
Proof.
  intros Hsh Hosh. unfold scatter_into. rewrite Hsh. intros Hfold i j Hi Hj.
  set (I := λ o : ndarray Z, shape o = [B; C; H; W]).
  assert (∀ i (s : ndarray Z) (j : Z) (s' : ndarray Z), I s →
            (getitem2 src i j ≫= λ lbl, setitem4 s 0 lbl i j 1) = Ok s' → I s')
    as Hbody.
  { intros i1 s j1 s' Hs (lbl & _ & Hset)%bind_Ok.
    by destruct (setitem4_Ok_flat _ _ _ _ _ _ _ _ _ _ _ Hs Hset). }
  apply (foldM_Ok_each I) in Hfold as [_ Hrows]; [| |exact Hosh].
  - destruct (Hrows i) as (s1 & s2 & Hs1 & Hrow); [apply elem_of_seqZ; lia|].
    apply (foldM_Ok_each I) in Hrow as [_ Hcols]; [|apply Hbody|exact Hs1].
    destruct (Hcols j) as (s3 & s4 & Hs3 & Hpix); [apply elem_of_seqZ; lia|].
    apply bind_Ok in Hpix as (lbl & Hget & Hset).
    destruct (setitem4_Ok_flat _ _ _ _ _ _ _ _ _ _ _ Hs3 Hset)
      as (_ & _ & Hi' & Hj' & _).
    done.
  - intros s i1 s' Hs Hrow.
    by apply (foldM_Ok_each I) in Hrow as [Hs' _]; [|apply Hbody|].
Qed.

(** X1: a grid with more than 256 rows, or more than 256 columns, and at
    least one pixel does not fit the fixed 256x256 output: [scatter] raises
    [IndexError], whatever the labels. *)
Theorem scatter_oversize_grid (src : ndarray Z) (h w : Z) :
  shape src = [h; w] →
  (256 < h ∧ 0 < w) ∨ (0 < h ∧ 256 < w) →
  scatter src = Raise IndexError.
Proof.
  intros Hsh Hbig. destruct (scatter src) as [out|e] eqn:Hscatter.
  - exfalso. unfold scatter in Hscatter.
    pose proof (scatter_into_Ok_pixels (np_zeros [1; 151; 256; 256]) out src
                  1 151 256 256 h w Hsh eq_refl Hscatter) as Hpix.
    destruct Hbig as [[Hh Hw]|[Hh Hw]].
    + specialize (Hpix 256 0). lia.
    + specialize (Hpix 0 256). lia.
  - f_equal. by apply (scatter_into_Raise _ src h w) in Hscatter.
Qed.

Lemma scatter_oversize_grid_witness :
  scatter (NdArray [257; 1] (replicate 257 0)) = Raise IndexError.
Proof.
  apply (scatter_oversize_grid (NdArray [257; 1] (replicate 257 0)) 257 1).
  - reflexivity.
  - left. lia.
Defined.

(** X2: [scatter] alone covers only the pixels of the grid it is given: on a
    grid of at most 256x256 whose labels select a channel, the sum over the
    class axis is 1 at the pixels of the grid and 0 at every other pixel of
    the 256x256 output. *)
Theorem scatter_class_sum (src : ndarray Z) (h w : Z) :
  shape src = [h; w] → Z.of_nat (length (flat src)) = h * w →
  0 ≤ h ≤ 256 → 0 ≤ w ≤ 256 →
  (∀ v, v ∈ flat src → -151 ≤ v < 151) →
  ∃ out, scatter src = Ok out ∧
    ∀ i j, 0 ≤ i < 256 → 0 ≤ j < 256 →
      class_sum out i j = Ok (if bool_decide (i < h ∧ j < w) then 1 else 0).
Proof.
  intros Hsh Hlen Hh Hw Hval.
  destruct (scatter_Ok src h w Hsh Hlen Hh Hw Hval) as (out & Hscatter & Hinv).
  exists out. split; [exact Hscatter|]. intros i j Hi Hj.
  pose proof Hinv as (Hosh & _ & _).
  unfold class_sum, range. rewrite Hosh.
  set (l := if bool_decide (i < h ∧ j < w)
            then channel_of 151 (label_at src w i j) else -1).
  change 151 with (Z.of_nat 151) at 1.
  rewrite (sum_indicator (λ c, getitem4 out 0 c i j) l).
  - f_equal. rewrite Z.add_0_l. subst l.
    destruct (decide (i < h ∧ j < w)) as [Hcov|Hcov].
    + assert (label_at src w i j ∈ flat src) as Hin
        by (apply (elem_of_label_at src h w); lia).
      specialize (Hval _ Hin).
      rewrite !(bool_decide_eq_true_2 (i < h ∧ j < w)) by done.
      rewrite bool_decide_eq_true_2; [done|].
      unfold channel_of. case_decide; lia.
    + rewrite !(bool_decide_eq_false_2 (i < h ∧ j < w)) by done.
      rewrite bool_decide_eq_false_2; [done|]. lia.
  - intros c Hc.
    rewrite (getitem4_scattered 151 256 256 src w h 0 out c i j Hinv) by lia.
    f_equal. apply (f_equal (λ b : bool, if b then 1 else 0)).
    apply bool_decide_ext. subst l. case_bool_decide; lia.
Qed.

Lemma scatter_class_sum_witness :
  ∃ out, scatter (NdArray [1; 2] [3; -1]) = Ok out ∧
    ∀ i j, 0 ≤ i < 256 → 0 ≤ j < 256 →
      class_sum out i j = Ok (if bool_decide (i < 1 ∧ j < 2) then 1 else 0).
Proof.
  apply (scatter_class_sum (NdArray [1; 2] [3; -1]) 1 2).
  - reflexivity.
  - reflexivity.
  - lia.
  - lia.
  - cbn [flat]. intros v Hv.
    repeat (apply elem_of_cons in Hv as [->|Hv]; [lia|]).
    by apply elem_of_nil in Hv.
Defined.

Lemma np_zeros_flat (sh : list Z) :
  0 ≤ size_of sh →
  Z.of_nat (length (flat (np_zeros sh))) = size_of sh ∧
  Forall (λ v, v = 0 ∨ v = 1) (flat (np_zeros sh)).
Proof.
  intros Hsize. unfold np_zeros. cbn [flat]. split.
  - rewrite length_replicate. lia.
  - apply Forall_replicate. by left.
Qed.

(** X3: whatever the grid, when [scatter] returns, its result has the shape
    (1, 151, 256, 256), holds 151 * 256 * 256 entries, and every entry is 0
    or 1. *)
Theorem scatter_result_binary (src out : ndarray Z) :
  scatter src = Ok out →
  shape out = [1; 151; 256; 256] ∧
  Z.of_nat (length (flat out)) = 151 * 256 * 256 ∧
  Forall (λ v, v = 0 ∨ v = 1) (flat out).
Proof.
  unfold scatter, scatter_into.
  destruct (shape src) as [|h [|w [|? ?]]]; try discriminate.
  set (I := λ o : ndarray Z,
         shape o = [1; 151; 256; 256] ∧
         Z.of_nat (length (flat o)) = 151 * 256 * 256 ∧
         Forall (λ v, v = 0 ∨ v = 1) (flat o)).
  assert (∀ i (s : ndarray Z) (j : Z) (s' : ndarray Z), I s →
            (getitem2 src i j ≫= λ lbl, setitem4 s 0 lbl i j 1) = Ok s' → I s')
    as Hbody.
  { intros i s j s' (Hs & Hlen & Hbin) (lbl & _ & Hset)%bind_Ok.
    destruct (setitem4_Ok_flat _ _ _ _ _ _ _ _ _ _ _ Hs Hset)
      as (Hs' & _ & _ & _ & k & Hflat).
    split; [done|]. rewrite Hflat. split; [by rewrite length_insert|].
    destruct (decide (k < length (flat s))%nat) as [Hk|Hk].
    - apply Forall_insert; [done|by right].
    - by rewrite list_insert_ge by lia. }
  intros Hfold. apply (foldM_Ok_each I) in Hfold as [Hout _]; [done| |].
  - intros s i s' Hs Hrow.
    by apply (foldM_Ok_each I) in Hrow as [Hs' _]; [|apply Hbody|].
  - destruct (np_zeros_flat [1; 151; 256; 256]) as [Hlen Hbin]; [cbn; lia|].
    split; [done|]. split; [|done]. rewrite Hlen. reflexivity.
Qed.

Lemma scatter_result_binary_witness :
  ∃ out, scatter (NdArray [1; 1] [-1]) = Ok out ∧
    shape out = [1; 151; 256; 256] ∧
    Z.of_nat (length (flat out)) = 151 * 256 * 256 ∧
    Forall (λ v, v = 0 ∨ v = 1) (flat out).
Proof.
  destruct (scatter_Ok (NdArray [1; 1] [-1]) 1 1 eq_refl eq_refl
              ltac:(lia) ltac:(lia)) as (out & Hscatter & _).
  { cbn [flat]. intros v ->%list_elem_of_singleton. lia. }
  exists out. split; [exact Hscatter|].
  exact (scatter_result_binary (NdArray [1; 1] [-1]) out Hscatter).
Defined.

(** ** The image preprocessing *)

Lemma length_bind_const_in {A B} (f : A → list B) (k : nat) (l : list A) :
  (∀ x, x ∈ l → length (f x) = k) → length (l ≫= f) = (length l * k)%nat.
Proof.
  induction l as [|x l IH]; intros Hf; [done|].
  rewrite bind_cons, length_app, (Hf x) by (by left).
  rewrite IH; [simpl; lia|]. intros y Hy. apply Hf. by right.
Qed.

Lemma lookup_bind_const {A B} (f : A → list B) (k : nat) (l : list A)
    (q r : nat) (x : A) :
  (∀ y, y ∈ l → length (f y) = k) → l !! q = Some x → (r < k)%nat →
  (l ≫= f) !! (q * k + r)%nat = f x !! r.
Proof.
  revert q. induction l as [|y l IH]; intros q Hf Hq Hr; [done|].
  rewrite bind_cons. destruct q as [|q]; simpl in Hq.
  - injection Hq as ->. simpl. apply lookup_app_l.
    rewrite (Hf x) by (by left). done.
  - rewrite lookup_app_r; rewrite (Hf y) by (by left); [|simpl; lia].
    replace (S q * k + r - k)%nat with (q * k + r)%nat by (simpl; lia).
    apply IH; [|done..]. intros z Hz. apply Hf. by right.
Qed.

Lemma source_offset_bound (H W C i j c : Z) :
  0 ≤ i < H → 0 ≤ j < W → 0 ≤ c < C →
  0 ≤ (i * W + j) * C + c < H * W * C.
Proof.
  intros Hi Hj Hc.
  pose proof (offset4_bound H W C i j c Hi Hj Hc) as Hb.
  unfold offset4 in Hb. by replace (0 * H + i) with i in Hb by lia.
Qed.

Lemma transposed_entry_length {A} (a : ndarray A) (H W C : Z) (c i j : Z) :
  0 ≤ H → 0 ≤ W → 0 ≤ C → Z.of_nat (length (flat a)) = H * W * C →
  0 ≤ c < C → 0 ≤ i < H → 0 ≤ j < W →
  length (option_list (flat a !! Z.to_nat ((i * W + j) * C + c))) = 1%nat.
Proof.
  intros HH HW HC Hlen Hc Hi Hj.
  pose proof (source_offset_bound H W C i j c Hi Hj Hc) as Hb.
  destruct (flat a !! Z.to_nat ((i * W + j) * C + c)) as [v|] eqn:Hv; [done|].
  apply lookup_ge_None in Hv. lia.
Qed.

Lemma transposed_row_length {A} (a : ndarray A) (H W C : Z) (c i : Z) :
  0 ≤ H → 0 ≤ W → 0 ≤ C → Z.of_nat (length (flat a)) = H * W * C →
  0 ≤ c < C → 0 ≤ i < H →
  length (range W ≫= λ j,
            option_list (flat a !! Z.to_nat ((i * W + j) * C + c))) = Z.to_nat W.
Proof.
  intros HH HW HC Hlen Hc Hi. rewrite (length_bind_const_in _ 1%nat).
  - unfold range. rewrite length_seqZ. lia.
  - intros j Hj%elem_of_seqZ. apply (transposed_entry_length a H W C); (done || lia).
Qed.

Lemma transposed_plane_length {A} (a : ndarray A) (H W C : Z) (c : Z) :
  0 ≤ H → 0 ≤ W → 0 ≤ C → Z.of_nat (length (flat a)) = H * W * C →
  0 ≤ c < C →
  length (range H ≫= λ i, range W ≫= λ j,
            option_list (flat a !! Z.to_nat ((i * W + j) * C + c))) =
  (Z.to_nat H * Z.to_nat W)%nat.
Proof.
  intros HH HW HC Hlen Hc. rewrite (length_bind_const_in _ (Z.to_nat W)).
  - unfold range. by rewrite length_seqZ.
  - intros i Hi%elem_of_seqZ. apply (transposed_row_length a H W C); (done || lia).
Qed.

Lemma transposed_lookup {A} (a : ndarray A) (H W C : Z) (c i j : Z) :
  0 ≤ H → 0 ≤ W → 0 ≤ C → Z.of_nat (length (flat a)) = H * W * C →
  0 ≤ c < C → 0 ≤ i < H → 0 ≤ j < W →
  (range C ≫= λ c, range H ≫= λ i, range W ≫= λ j,
     option_list (flat a !! Z.to_nat ((i * W + j) * C + c)))
    !! Z.to_nat ((c * H + i) * W + j) =
  flat a !! Z.to_nat ((i * W + j) * C + c).
Proof.
  intros HH HW HC Hlen Hc Hi Hj.
  pose proof (source_offset_bound H W C i j c Hi Hj Hc) as Hb.
  replace (Z.to_nat ((c * H + i) * W + j))
    with (Z.to_nat c * (Z.to_nat H * Z.to_nat W) +
          (Z.to_nat i * Z.to_nat W + Z.to_nat j))%nat.
  2:{ assert (0 ≤ c * H) by (apply Z.mul_nonneg_nonneg; lia).
      assert (0 ≤ (c * H + i) * W) by (apply Z.mul_nonneg_nonneg; lia).
      apply Nat2Z.inj.
      rewrite !Nat2Z.inj_add, !Nat2Z.inj_mul, !Z2Nat.id by lia. ring. }
  assert (Z.to_nat i * Z.to_nat W + Z.to_nat j < Z.to_nat H * Z.to_nat W)%nat
    as Hij.
  { apply Nat2Z.inj_lt.
    rewrite !Nat2Z.inj_add, !Nat2Z.inj_mul, !Z2Nat.id by lia.
    pose proof (offset2_bound H W i j Hi Hj) as Hb2. unfold offset2 in Hb2. lia. }
  rewrite (lookup_bind_const _ (Z.to_nat H * Z.to_nat W) _ _ _ c).
  - rewrite (lookup_bind_const _ (Z.to_nat W) _ _ _ i).
    + replace (Z.to_nat j) with (Z.to_nat j * 1 + 0)%nat by lia.
      rewrite (lookup_bind_const _ 1%nat _ _ _ j).
      * by destruct (flat a !! Z.to_nat ((i * W + j) * C + c)).
      * intros j' Hj'%elem_of_seqZ. apply (transposed_entry_length a H W C); (done || lia).
      * unfold range. rewrite lookup_seqZ_lt by lia. f_equal. lia.
      * lia.
    + intros i' Hi'%elem_of_seqZ. apply (transposed_row_length a H W C); (done || lia).
    + unfold range. rewrite lookup_seqZ_lt by lia. f_equal. lia.
    + lia.
  - intros c' Hc'%elem_of_seqZ. apply (transposed_plane_length a H W C); (done || lia).
  - unfold range. rewrite lookup_seqZ_lt by lia. f_equal. lia.
  - exact Hij.
Qed.

Lemma np_transpose_201_wf {A} (a : ndarray A) (H W C : Z) :
  shape a = [H; W; C] → 0 ≤ H → 0 ≤ W → 0 ≤ C →
  Z.of_nat (length (flat a)) = H * W * C →
  ∃ t, np_transpose_201 a = Ok t ∧ shape t = [C; H; W] ∧
    Z.of_nat (length (flat t)) = C * H * W ∧
    ∀ v, v ∈ flat t → v ∈ flat a.
Proof.
  intros Hsh HH HW HC Hlen. unfold np_transpose_201. rewrite Hsh.
  eexists. split; [reflexivity|]. split; [reflexivity|]. cbn [flat shape].
  split.
  - rewrite (length_bind_const_in _ (Z.to_nat H * Z.to_nat W)).
    + unfold range. rewrite length_seqZ.
      rewrite !Nat2Z.inj_mul, !Z2Nat.id by lia. ring.
    + intros c Hc%elem_of_seqZ.
      apply (transposed_plane_length a H W C); (done || lia).
  - intros v (c & Hv & _)%list_elem_of_bind.
    apply list_elem_of_bind in Hv as (i & Hv & _).
    apply list_elem_of_bind in Hv as (j & Hv & _).
    destruct (flat a !! Z.to_nat ((i * W + j) * C + c)) as [x|] eqn:Hx;
      simpl in Hv; [|by apply elem_of_nil in Hv].
    apply list_elem_of_singleton in Hv as ->.
    by eapply list_elem_of_lookup_2.
Qed.

(** X4: [np.transpose(image, (2, 0, 1))] of a well-formed (H, W, C) array is
    a well-formed (C, H, W) array with the same entries, the one at
    [(c, i, j)] being the source's entry at [(i, j, c)]. *)
Theorem np_transpose_201_entries {A} (a : ndarray A) (H W C : Z) :
  shape a = [H; W; C] → 0 ≤ H → 0 ≤ W → 0 ≤ C →
  Z.of_nat (length (flat a)) = H * W * C →
  ∃ t, np_transpose_201 a = Ok t ∧ shape t = [C; H; W] ∧
    Z.of_nat (length (flat t)) = C * H * W ∧
    (∀ v, v ∈ flat t → v ∈ flat a) ∧
    ∀ c i j, 0 ≤ c < C → 0 ≤ i < H → 0 ≤ j < W →
      ∃ v, getitem3 a i j c = Ok v ∧ getitem3 t c i j = Ok v.
Proof.
  intros Hsh HH HW HC Hlen. unfold np_transpose_201. rewrite Hsh.
  eexists. split; [reflexivity|]. split; [reflexivity|]. cbn [flat shape].
  split; [|split].
  - rewrite (length_bind_const_in _ (Z.to_nat H * Z.to_nat W)).
    + unfold range. rewrite length_seqZ.
      rewrite !Nat2Z.inj_mul, !Z2Nat.id by lia. ring.
    + intros c Hc%elem_of_seqZ.
      apply (transposed_plane_length a H W C); (done || lia).
  - intros v (c & Hv & _)%list_elem_of_bind.
    apply list_elem_of_bind in Hv as (i & Hv & _).
    apply list_elem_of_bind in Hv as (j & Hv & _).
    destruct (flat a !! Z.to_nat ((i * W + j) * C + c)) as [x|] eqn:Hx;
      simpl in Hv; [|by apply elem_of_nil in Hv].
    apply list_elem_of_singleton in Hv as ->.
    by eapply list_elem_of_lookup_2.
  - intros c i j Hc Hi Hj.
    pose proof (source_offset_bound H W C i j c Hi Hj Hc) as Hb.
    destruct (flat a !! Z.to_nat ((i * W + j) * C + c)) as [v|] eqn:Hv;
      [|apply lookup_ge_None in Hv; lia].
    exists v. unfold getitem3. rewrite Hsh. cbn [shape flat].
    rewrite (norm_index_nonneg H i), (norm_index_nonneg W j),
      (norm_index_nonneg C c) by lia.
    cbn. rewrite Hv. split; [done|].
    by rewrite (transposed_lookup a H W C c i j HH HW HC Hlen Hc Hi Hj), Hv.
Qed.


Lemma np_transpose_201_entries_witness :
  ∃ t, np_transpose_201 (NdArray [1; 2; 3] [10; 20; 30; 11; 21; 31]) = Ok t ∧
    shape t = [3; 1; 2] ∧
    Z.of_nat (length (flat t)) = 3 * 1 * 2 ∧
    (∀ v, v ∈ flat t → v ∈ [10; 20; 30; 11; 21; 31]) ∧
    ∀ c i j, 0 ≤ c < 3 → 0 ≤ i < 1 → 0 ≤ j < 2 →
      ∃ v, getitem3 (NdArray [1; 2; 3] [10; 20; 30; 11; 21; 31]) i j c = Ok v ∧
           getitem3 t c i j = Ok v.
Proof.
  apply (np_transpose_201_entries (NdArray [1; 2; 3] [10; 20; 30; 11; 21; 31])
           1 2 3); (reflexivity || lia).
Defined.

Lemma swap_channels_spec (P : Z → Prop) (n : nat) :
  ∀ l, (length l ≤ n)%nat →
       length (swap_channels l) = length l ∧
       (Forall P l → Forall P (swap_channels l)).
Proof.
  induction n as [|n IH]; intros l Hn.
  - destruct l; [done|simpl in Hn; lia].
  - destruct l as [|b [|g [|r l]]]; try done.
    destruct (IH l) as [Hlen Hall]; [simpl in Hn; lia|].
    split; [simpl; by rewrite Hlen|].
    intros HP. inversion_clear HP as [|? ? Hb HP1].
    inversion_clear HP1 as [|? ? Hg HP2].
    inversion_clear HP2 as [|? ? Hr HP3].
    simpl. repeat constructor; auto.
Qed.

Lemma demo_cvtColor_contract : cvtColor_contract demo_cvtColor.
Proof.
  intros img h w Hsh Hh Hw Hlen Hbytes. unfold demo_cvtColor.
  destruct (swap_channels_spec (λ x, 0 ≤ x ≤ 255) (length (flat img)) (flat img))
    as [Hl Hall]; [done|].
  eexists. split; [reflexivity|]. cbn [shape flat].
  split; [done|]. split; [by rewrite Hl|by apply Hall].
Qed.

Lemma demo_resize_cubic_contract : cubic_resize_256 demo_resize_cubic.
Proof.
  intros img h w Hsh Hh Hw Hlen Hbytes. unfold demo_resize_cubic.
  eexists. split; [reflexivity|]. cbn [shape flat].
  split; [done|]. split.
  - rewrite length_replicate. apply Z2Nat.id. lia.
  - apply Forall_replicate. lia.
Qed.

(** X5: given OpenCV's colour conversion and cubic resize, the image
    preprocessing of a non-empty 3-channel uint8 image returns a tensor of
    shape (3, 256, 256) all of whose float64 entries lie in [-1, 1]. *)
Theorem preprocess_with_images_normalized
    (cv2_cvtColor cv2_resize_cubic : ndarray Z → result (ndarray Z))
    (image : ndarray Z) (h w : Z) :
  cvtColor_contract cv2_cvtColor → cubic_resize_256 cv2_resize_cubic →
  shape image = [h; w; 3] → 0 < h → 0 < w →
  Z.of_nat (length (flat image)) = h * w * 3 →
  Forall (λ x, 0 ≤ x ≤ 255) (flat image) →
  ∃ out, preprocess_with_images cv2_cvtColor cv2_resize_cubic image = Ok out ∧
    shape out = [3; 256; 256] ∧
    Z.of_nat (length (flat out)) = 3 * 256 * 256 ∧
    Forall (λ y, PrimFloat.leb (-1) y = true ∧ PrimFloat.leb y 1 = true)
      (flat out).
Proof.
  intros Hcvt Hresize Hsh Hh Hw Hlen Hbytes.
  destruct (Hcvt image h w Hsh Hh Hw Hlen Hbytes)
    as (rgb & Hrgb & Hrsh & Hrlen & Hrbytes).
  destruct (Hresize rgb h w Hrsh Hh Hw Hrlen Hrbytes)
    as (resized & Hres & Hzsh & Hzlen & Hzbytes).
  destruct (np_transpose_201_wf resized 256 256 3 Hzsh)
    as (t & Ht & Htsh & Htlen & Htfrom); [lia..|].
  unfold preprocess_with_images. rewrite Hrgb. cbn. rewrite Hres. cbn.
  rewrite Ht. cbn. eexists. split; [reflexivity|].
  unfold normalization, np_divide, np_subtract. cbn [shape flat].
  split; [exact Htsh|]. split; [by rewrite !length_fmap|].
  rewrite <- list_fmap_compose. apply Forall_fmap, Forall_forall.
  intros x Hx%list_elem_of_In%Htfrom%list_elem_of_In.
  rewrite Forall_forall in Hzbytes.
  pose proof (byte_ok_byte x (Hzbytes x Hx)) as Hok. unfold byte_ok in Hok.
  apply andb_prop in Hok as [Hok _]. apply andb_prop in Hok as [Hlo Hhi].
  done.
Qed.

Lemma preprocess_with_images_normalized_witness :
  ∃ out,
    preprocess_with_images demo_cvtColor demo_resize_cubic
      (NdArray [1; 2; 3] [0; 128; 255; 7; 8; 9]) = Ok out ∧
    shape out = [3; 256; 256] ∧
    Z.of_nat (length (flat out)) = 3 * 256 * 256 ∧
    Forall (λ y, PrimFloat.leb (-1) y = true ∧ PrimFloat.leb y 1 = true)
      (flat out).
Proof.
  apply (preprocess_with_images_normalized demo_cvtColor demo_resize_cubic
           (NdArray [1; 2; 3] [0; 128; 255; 7; 8; 9]) 1 2).
  - exact demo_cvtColor_contract.
  - exact demo_resize_cubic_contract.
  - reflexivity.
  - lia.
  - lia.
  - reflexivity.
  - cbn [flat]. repeat constructor; lia.
Defined.

(** ** Entries of a concatenation along axis 1 *)

Lemma interleave_length {A} (n ka kb : nat) :
  ∀ xa xb : list A,
    length xa = (n * ka)%nat → length xb = (n * kb)%nat →
    length (interleave n ka kb xa xb) = (n * (ka + kb))%nat.
Proof.
  induction n as [|n IH]; intros xa xb Ha Hb; [done|].
  cbn [interleave]. rewrite !length_app, !length_take_le by lia.
  rewrite IH by (rewrite length_drop; lia). lia.
Qed.

Lemma interleave_lookup {A} (n ka kb : nat) :
  ∀ (xa xb : list A) (q r : nat),
    (q < n)%nat → length xa = (n * ka)%nat → length xb = (n * kb)%nat →
    (r < ka + kb)%nat →
    interleave n ka kb xa xb !! (q * (ka + kb) + r)%nat =
    if decide (r < ka)%nat then xa !! (q * ka + r)%nat
    else xb !! (q * kb + (r - ka))%nat.
Proof.
  induction n as [|n IH]; intros xa xb q r Hq Ha Hb Hr; [lia|].
  cbn [interleave]. destruct q as [|q].
  - cbn [Nat.mul Nat.add]. case_decide as Hlt.
    + rewrite lookup_app_l by (rewrite length_take_le; lia).
      by rewrite lookup_take_lt.
    + rewrite lookup_app_r by (rewrite length_take_le; lia).
      rewrite length_take_le by lia.
      rewrite lookup_app_l by (rewrite length_take_le; lia).
      by rewrite lookup_take_lt by lia.
  - rewrite lookup_app_r by (rewrite length_take_le; lia).
    rewrite length_take_le by lia.
    rewrite lookup_app_r by (rewrite length_take_le; lia).
    rewrite length_take_le by lia.
    replace (S q * (ka + kb) + r - ka - kb)%nat with (q * (ka + kb) + r)%nat
      by lia.
    rewrite IH by (rewrite ?length_drop; lia).
    rewrite !lookup_drop. case_decide; f_equal; lia.
Qed.

Lemma interleave_lookup_Z {A} (N KA KB n R : Z) (xa xb : list A) :
  0 ≤ n < N → 0 ≤ KA → 0 ≤ KB → 0 ≤ R < KA + KB →
  Z.of_nat (length xa) = N * KA → Z.of_nat (length xb) = N * KB →
  interleave (Z.to_nat N) (Z.to_nat KA) (Z.to_nat KB) xa xb
    !! Z.to_nat (n * (KA + KB) + R) =
  if decide (R < KA) then xa !! Z.to_nat (n * KA + R)
  else xb !! Z.to_nat (n * KB + (R - KA)).
Proof.
  intros Hn HKA HKB HR Ha Hb.
  assert (0 ≤ n * KA) by (apply Z.mul_nonneg_nonneg; lia).
  assert (0 ≤ n * KB) by (apply Z.mul_nonneg_nonneg; lia).
  assert (0 ≤ n * (KA + KB)) by (apply Z.mul_nonneg_nonneg; lia).
  replace (Z.to_nat (n * (KA + KB) + R))
    with (Z.to_nat n * (Z.to_nat KA + Z.to_nat KB) + Z.to_nat R)%nat
    by (apply Nat2Z.inj;
        rewrite !Nat2Z.inj_add, !Nat2Z.inj_mul, !Nat2Z.inj_add, !Z2Nat.id by lia;
        ring).
  rewrite interleave_lookup.
  - destruct (decide (R < KA)) as [Hlt|Hge].
    + rewrite decide_True by lia. f_equal. apply Nat2Z.inj.
      rewrite !Nat2Z.inj_add, !Nat2Z.inj_mul, !Z2Nat.id by lia. ring.
    + rewrite decide_False by lia. f_equal. apply Nat2Z.inj.
      rewrite !Nat2Z.inj_add, !Nat2Z.inj_mul, Nat2Z.inj_sub, !Z2Nat.id by lia.
      ring.
  - lia.
  - apply Nat2Z.inj. rewrite Nat2Z.inj_mul, !Z2Nat.id by lia. exact Ha.
  - apply Nat2Z.inj. rewrite Nat2Z.inj_mul, !Z2Nat.id by lia. exact Hb.
  - lia.
Qed.

(** X6: concatenating two well-formed 4-D tensors that agree on batch,
    height and width gives a well-formed tensor whose first channels are the
    channels of the first tensor and whose remaining channels are those of
    the second, entry by entry. *)
Theorem np_concatenate_axis1_entries {A} (a b : ndarray A) (N C1 C2 H W : Z) :
  shape a = [N; C1; H; W] → shape b = [N; C2; H; W] →
  0 ≤ N → 0 ≤ C1 → 0 ≤ C2 → 0 ≤ H → 0 ≤ W →
  Z.of_nat (length (flat a)) = N * C1 * H * W →
  Z.of_nat (length (flat b)) = N * C2 * H * W →
  ∃ t, np_concatenate_axis1 a b = Ok t ∧ shape t = [N; C1 + C2; H; W] ∧
    Z.of_nat (length (flat t)) = N * (C1 + C2) * H * W ∧
    ∀ n c i j, 0 ≤ n < N → 0 ≤ c < C1 + C2 → 0 ≤ i < H → 0 ≤ j < W →
      getitem4 t n c i j =
      if decide (c < C1) then getitem4 a n c i j
      else getitem4 b n (c - C1) i j.
Proof.
  intros Ha Hb HN HC1 HC2 HH HW Hla Hlb.
  rewrite (np_concatenate_axis1_agree a b N C1 C2 [H; W] Ha Hb).
  eexists. split; [reflexivity|]. split; [reflexivity|].
  cbn [shape flat size_of foldr].
  set (KA := C1 * (H * (W * 1))). set (KB := C2 * (H * (W * 1))).
  assert (0 ≤ H * (W * 1)) as HHW by (apply Z.mul_nonneg_nonneg; lia).
  assert (0 ≤ KA) by (apply Z.mul_nonneg_nonneg; lia).
  assert (0 ≤ KB) by (apply Z.mul_nonneg_nonneg; lia).
  assert (0 ≤ N * KA) by (apply Z.mul_nonneg_nonneg; lia).
  assert (0 ≤ N * KB) by (apply Z.mul_nonneg_nonneg; lia).
  assert (Z.of_nat (length (flat a)) = N * KA) as Hla'
    by (rewrite Hla; unfold KA; ring).
  assert (Z.of_nat (length (flat b)) = N * KB) as Hlb'
    by (rewrite Hlb; unfold KB; ring).
  split.
  - rewrite interleave_length.
    + rewrite Nat2Z.inj_mul, Nat2Z.inj_add, !Z2Nat.id by lia.
      unfold KA, KB. ring.
    + apply Nat2Z.inj. rewrite Nat2Z.inj_mul, !Z2Nat.id by lia. exact Hla'.
    + apply Nat2Z.inj. rewrite Nat2Z.inj_mul, !Z2Nat.id by lia. exact Hlb'.
  - intros n c i j Hn Hc Hi Hj. unfold getitem4. cbn [shape flat].
    rewrite Ha, Hb.
    rewrite (norm_index_nonneg N n), (norm_index_nonneg (C1 + C2) c),
      (norm_index_nonneg H i), (norm_index_nonneg W j) by lia.
    cbn.
    set (R := (c * H + i) * W + j).
    assert (0 ≤ c * H) by (apply Z.mul_nonneg_nonneg; lia).
    assert (0 ≤ (c * H + i) * W) by (apply Z.mul_nonneg_nonneg; lia).
    pose proof (offset4_bound (C1 + C2) H W c i j Hc Hi Hj) as HR.
    unfold offset4 in HR. replace (0 * (C1 + C2) + c) with c in HR by lia.
    replace (offset4 (C1 + C2) H W n c i j) with (n * (KA + KB) + R)
      by (unfold offset4, KA, KB, R; ring).
    rewrite (interleave_lookup_Z N KA KB n R); try done; try lia.
    destruct (decide (c < C1)) as [Hlt|Hge].
    + pose proof (offset4_bound C1 H W c i j ltac:(lia) Hi Hj) as Hb1.
      unfold offset4 in Hb1. replace (0 * C1 + c) with c in Hb1 by lia.
      fold R in Hb1.
      rewrite decide_True by (unfold KA; lia).
      rewrite (norm_index_nonneg C1 c) by lia. cbn.
      by replace (n * KA + R) with (offset4 C1 H W n c i j)
        by (unfold offset4, KA, R; ring).
    + assert (C1 * H ≤ c * H) by (apply Z.mul_le_mono_nonneg_r; lia).
      assert (C1 * H * W ≤ c * H * W) by (apply Z.mul_le_mono_nonneg_r; lia).
      assert (c * H * W ≤ (c * H + i) * W)
        by (apply Z.mul_le_mono_nonneg_r; lia).
      rewrite decide_False by (unfold KA, R; lia).
      rewrite (norm_index_nonneg C2 (c - C1)) by lia. cbn.
      by replace (n * KB + (R - KA)) with (offset4 C2 H W n (c - C1) i j)
        by (unfold offset4, KA, KB, R; ring).
Qed.


Lemma np_concatenate_axis1_entries_witness :
  let a := NdArray [2; 1; 1; 2] [1; 2; 3; 4] in
  let b := NdArray [2; 2; 1; 2] [10; 20; 30; 40; 50; 60; 70; 80] in
  ∃ t, np_concatenate_axis1 a b = Ok t ∧ shape t = [2; 1 + 2; 1; 2] ∧
    Z.of_nat (length (flat t)) = 2 * (1 + 2) * 1 * 2 ∧
    ∀ n c i j, 0 ≤ n < 2 → 0 ≤ c < 1 + 2 → 0 ≤ i < 1 → 0 ≤ j < 2 →
      getitem4 t n c i j =
      if decide (c < 1) then getitem4 a n c i j
      else getitem4 b n (c - 1) i j.
Proof.
  apply (np_concatenate_axis1_entries (NdArray [2; 1; 1; 2] [1; 2; 3; 4])
           (NdArray [2; 2; 1; 2] [10; 20; 30; 40; 50; 60; 70; 80]) 2 1 2 1 2);
    (reflexivity || lia).
Defined.

(** ** Exceptions and feeds in [CocosnetModel.predict] *)

Lemma predict_first_Raise {T Inp Pred} (self : CocosnetModel T Inp Pred)
    (before after : list Inp) (inp : Inp) (done : list Pred) (e : exn) :
  predict self before = Ok done →
  predict_body self done inp = Raise e →
  predict self (before ++ inp :: after) = Raise e.
Proof.
  intros Hbefore Hbody. unfold predict in *.
  rewrite foldM_app, Hbefore. cbn. by rewrite Hbody.
Qed.

(** X7: the first stage that fails decides the outcome of [predict]: after
    any number of samples predicted normally, a sample whose feeding raises,
    whose feed list is empty ([IndexError]), whose correspondence inference
    raises, whose correspondence output lacks the warped-reference key or
    whose feed lacks the input-semantics key ([KeyError] with that key), or
    whose generator inference raises, makes [predict] raise that exception,
    whatever samples follow. *)
Theorem predict_stage_errors {T Inp Pred} (self : CocosnetModel T Inp Pred)
    (before after : list Inp) (inp : Inp) (done : list Pred) :
  predict self before = Ok done →
  (∀ e, corr_fit_to_input (correspondence self) inp = Raise e →
        predict self (before ++ inp :: after) = Raise e) ∧
  (corr_fit_to_input (correspondence self) inp = Ok [] →
   predict self (before ++ inp :: after) = Raise IndexError) ∧
  (∀ feed feeds,
     corr_fit_to_input (correspondence self) inp = Ok (feed :: feeds) →
     (∀ e, corr_predict (correspondence self) feed = Raise e →
           predict self (before ++ inp :: after) = Raise e) ∧
     (∀ corr_out,
        corr_predict (correspondence self) feed = Ok corr_out →
        (corr_out !! key_of_warped_reference (correspondence self) = None →
         predict self (before ++ inp :: after) =
           Raise (KeyError (key_of_warped_reference (correspondence self)))) ∧
        (∀ warped,
           corr_out !! key_of_warped_reference (correspondence self) =
             Some warped →
           (feed !! key_of_input_semantics (correspondence self) = None →
            predict self (before ++ inp :: after) =
              Raise (KeyError (key_of_input_semantics (correspondence self)))) ∧
           (∀ semantics gen_input e,
              feed !! key_of_input_semantics (correspondence self) =
                Some semantics →
              np_concatenate_axis1 warped semantics = Ok gen_input →
              gen_predict (generator self) gen_input = Raise e →
              predict self (before ++ inp :: after) = Raise e)))).
Proof.
  intros Hbefore.
  assert (∀ e, predict_body self done inp = Raise e →
               predict self (before ++ inp :: after) = Raise e) as Hraise
    by (intros e; by apply predict_first_Raise).
  split; [|split].
  - intros e Hfit. apply Hraise. unfold predict_body. by rewrite Hfit.
  - intros Hfit. apply Hraise. unfold predict_body. by rewrite Hfit.
  - intros feed feeds Hfit. split.
    + intros e Hcorr. apply Hraise. unfold predict_body.
      rewrite Hfit. cbn. by rewrite Hcorr.
    + intros corr_out Hcorr. split.
      * intros Hnone. apply Hraise. unfold predict_body, dict_getitem.
        rewrite Hfit. cbn. rewrite Hcorr. cbn. by rewrite Hnone.
      * intros warped Hwarped. split.
        -- intros Hnone. apply Hraise. unfold predict_body, dict_getitem.
           rewrite Hfit. cbn. rewrite Hcorr. cbn. rewrite Hwarped. cbn.
           by rewrite Hnone.
        -- intros semantics gen_input e Hsem Hcat Hgen. apply Hraise.
           unfold predict_body, dict_getitem.
           rewrite Hfit. cbn. rewrite Hcorr. cbn. rewrite Hwarped. cbn.
           rewrite Hsem. cbn. rewrite Hcat. cbn. by rewrite Hgen.
Qed.

Lemma predict_stage_errors_witness :
  predict starved_model
    ([NdArray [1; 2; 1; 1] [8; 9]] ++ NdArray [0] [] ::
     [NdArray [1; 2; 1; 1] [8; 9]]) = Raise IndexError.
Proof.
  assert (predict starved_model [NdArray [1; 2; 1; 1] [8; 9]] =
          Ok [NdArray [1; 3; 1; 1] [7; 8; 9]]) as Hbefore
    by (vm_compute; reflexivity).
  apply (proj1 (proj2 (predict_stage_errors starved_model
           [NdArray [1; 2; 1; 1] [8; 9]] [NdArray [1; 2; 1; 1] [8; 9]]
           (NdArray [0] []) [NdArray [1; 3; 1; 1] [7; 8; 9]] Hbefore))).
  reflexivity.
Defined.

Lemma predict_body_same_first_feed {T Inp Pred}
    (self other : CocosnetModel T Inp Pred) (results : list Pred) (inp : Inp) :
  corr_exec_network_infer (correspondence other) =
    corr_exec_network_infer (correspondence self) →
  key_of_warped_reference (correspondence other) =
    key_of_warped_reference (correspondence self) →
  key_of_input_semantics (correspondence other) =
    key_of_input_semantics (correspondence self) →
  generator other = generator self →
  corr_fit_to_input (correspondence other) inp ≫= list_getitem0 =
    corr_fit_to_input (correspondence self) inp ≫= list_getitem0 →
  predict_body other results inp = predict_body self results inp.
Proof.
  intros Hinfer Hkw Hks Hgen Hfeed. unfold predict_body, corr_predict.
  rewrite Hinfer, Hkw, Hks, Hgen.
  destruct (corr_fit_to_input (correspondence other) inp) as [fed1|e1];
    destruct (corr_fit_to_input (correspondence self) inp) as [fed2|e2];
    cbn in *.
  - destruct (list_getitem0 fed1) as [f1|e1];
      destruct (list_getitem0 fed2) as [f2|e2]; cbn; by simplify_eq.
  - destruct (list_getitem0 fed1); cbn; by simplify_eq.
  - destruct (list_getitem0 fed2); cbn; by simplify_eq.
  - by simplify_eq.
Qed.

(** X8: of the feeds the input feeder returns for a sample, [predict] uses
    the first only: two models that differ in nothing but their input feeder,
    and whose feeders agree on the first feed of every sample, predict the
    same. *)
Theorem predict_uses_first_feed_only {T Inp Pred}
    (self other : CocosnetModel T Inp Pred) (inputs : list Inp) :
  corr_exec_network_infer (correspondence other) =
    corr_exec_network_infer (correspondence self) →
  key_of_warped_reference (correspondence other) =
    key_of_warped_reference (correspondence self) →
  key_of_input_semantics (correspondence other) =
    key_of_input_semantics (correspondence self) →
  generator other = generator self →
  (∀ inp, corr_fit_to_input (correspondence other) inp ≫= list_getitem0 =
          corr_fit_to_input (correspondence self) inp ≫= list_getitem0) →
  predict other inputs = predict self inputs.
Proof.
  intros Hinfer Hkw Hks Hgen Hfeed. unfold predict.
  generalize (@nil Pred). induction inputs as [|inp inputs IH]; intros acc;
    [done|].
  cbn [foldM].
  rewrite (predict_body_same_first_feed self other acc inp Hinfer Hkw Hks Hgen
             (Hfeed inp)).
  destruct (predict_body self acc inp); cbn; [apply IH|done].
Qed.

Lemma predict_uses_first_feed_only_witness :
  predict twice_fed_model [NdArray [1; 2; 1; 1] [8; 9]] =
  predict demo_model [NdArray [1; 2; 1; 1] [8; 9]].
Proof.
  apply (predict_uses_first_feed_only demo_model twice_fed_model); reflexivity.
Defined.

(** ** More on [_get_batch_input] *)

Section GetBatchInputMore.
Context {Obj Ann Ident Data Meta Pred Metric Presenter : Type}.
Context (env : Collaborators Obj Ann Ident Data Meta Pred Metric Presenter).
Context (self : CocosnetEvaluator Ann Pred Metric) (h : heap Obj).

Lemma mapM_returns {A B} (f : A → result B) (l : list A) :
  (∀ x, ∃ y, f x = Ok y) → ∃ k, mapM f l = Ok k.
Proof.
  intros Hf. induction l as [|x l [k IH]]; [by exists []|].
  destruct (Hf x) as [y Hy]. exists (y :: k). cbn. rewrite Hy. cbn.
  by rewrite IH.
Qed.

Hypothesis Hprocess :
  ∀ o x anns, ∃ first rest,
    preprocessor_process env o [DataRepresentation_new env x] anns =
      Ok (first :: rest).

Lemma process_channel_returns (batch_annotation : list Ann) (i k : nat)
    (bi : list (DataRepresentation (list Data) Meta Ident))
    (calls : list (process_call Data))
    (input : DataRepresentation (list Data) Meta Ident) (x : Data) :
  bi !! i = Some input → data input !! k = Some x →
  ∃ y, process_channel env self h batch_annotation i (bi, calls) k =
       Ok (<[i := {| data := <[k := y]> (data input);
                     metadata := metadata input;
                     identifier := identifier input |}]> bi,
           calls ++ [ProcessCall (preprocessor_for self k) i k x]).
Proof.
  intros Hinput Hx. unfold process_channel.
  rewrite Hinput. cbn. rewrite Hx. cbn. rewrite parity_preprocessor.
  destruct (Hprocess (obj_at h (preprocessor_for self k)) x batch_annotation)
    as (first & rest & ->).
  cbn. by exists (data first).
Qed.

Lemma process_channels_returns (batch_annotation : list Ann) (i : nat)
    (todo : list Data) :
  ∀ (done : list Data)
    (bi : list (DataRepresentation (list Data) Meta Ident))
    (calls : list (process_call Data))
    (input : DataRepresentation (list Data) Meta Ident),
    bi !! i = Some input → data input = done ++ todo →
    ∃ st, foldM (process_channel env self h batch_annotation i)
                (seq (length done) (length todo)) (bi, calls) = Ok st.
Proof.
  induction todo as [|x todo IH]; intros done bi calls input Hinput Hdata.
  - by eexists.
  - cbn [length seq foldM].
    assert (data input !! length done = Some x) as Hx
      by (rewrite Hdata; by apply list_lookup_middle).
    destruct (process_channel_returns batch_annotation i (length done) bi calls
                input x Hinput Hx) as [y ->].
    cbn.
    pose proof (lookup_lt_Some _ _ _ Hinput) as Hlt.
    replace (S (length done)) with (length (done ++ [y]))
      by (rewrite length_app; simpl; lia).
    eapply IH; [by apply list_lookup_insert_eq|].
    cbn [data]. rewrite Hdata.
    by rewrite <- (Nat.add_0_r (length done)), insert_app_r, <- app_assoc.
Qed.

Lemma process_samples_returns (batch_annotation : list Ann)
    (todo : list (DataRepresentation (list Data) Meta Ident)) :
  ∀ (done : list (DataRepresentation (list Data) Meta Ident))
    (calls : list (process_call Data)),
    ∃ st,
      foldM (λ st i,
          input ← from_option Ok (Raise IndexError) (st.1 !! i);
          foldM (process_channel env self h batch_annotation i)
                (seq 0 (length (data input))) st)
        (seq (length done) (length todo)) (done ++ todo, calls) = Ok st.
Proof.
  induction todo as [|r todo IH]; intros done calls; [by eexists|].
  cbn [length seq foldM].
  assert ((done ++ r :: todo) !! length done = Some r) as Hr
    by (by apply list_lookup_middle).
  cbn. rewrite Hr. cbn.
  destruct (process_channels_returns batch_annotation (length done) (data r) []
              (done ++ r :: todo) calls r Hr eq_refl) as [[bi1 calls1] Hrow].
  cbn in Hrow. rewrite Hrow. cbn.
  apply (process_channels_Ok env self h batch_annotation (length done) (data r)
           [] _ _ _ _ r Hr eq_refl) in Hrow as (ys & _ & -> & _ & _).
  cbn [app].
  set (p := {| data := ys; metadata := metadata r;
               identifier := identifier r |}).
  replace (<[length done := p]> (done ++ r :: todo)) with ((done ++ [p]) ++ todo)
    by (rewrite <- (Nat.add_0_r (length done)), insert_app_r, <- app_assoc; done).
  replace (S (length done)) with (length (done ++ [p]))
    by (rewrite length_app; simpl; lia).
  apply IH.
Qed.

End GetBatchInputMore.

(** X9: [_get_batch_input] returns whenever the reader, the annotation
    metadata update and the preprocessors return, each preprocessor call
    giving at least one representation back: none of the index lookups the
    loops make can fail. *)
Theorem get_batch_input_returns
    {Obj Ann Ident Data Meta Pred Metric Presenter : Type}
    (env : Collaborators Obj Ann Ident Data Meta Pred Metric Presenter)
    (self : CocosnetEvaluator Ann Pred Metric) (h : heap Obj)
    (batch_annotation : list Ann) :
  (∀ o idn, ∃ r, reader_call env o idn = Ok r) →
  (∀ o a d s, ∃ a', set_annotation_metadata env o a d s = Ok a') →
  (∀ o x anns, ∃ first rest,
     preprocessor_process env o [DataRepresentation_new env x] anns =
       Ok (first :: rest)) →
  ∃ out, _get_batch_input env self h batch_annotation = Ok out.
Proof.
  intros Hreader Hmeta Hprocess. unfold _get_batch_input.
  destruct (mapM_returns (reader_call env (obj_at h (reader self)))
              (annotation_identifier env <$> batch_annotation)) as [raw ->];
    [apply Hreader|].
  cbn.
  destruct (mapM_returns
              (λ '(annotation, input_data),
                 set_annotation_metadata env (obj_at h (dataset self))
                   annotation input_data (obj_at h (reader self)))
              (zip batch_annotation raw)) as [annotated ->];
    [intros [a d]; apply Hmeta|].
  cbn.
  destruct (process_samples_returns env self h Hprocess
              (annotated ++ drop (length annotated) batch_annotation) raw [] [])
    as [[processed calls] Hloop].
  cbn in Hloop. rewrite Hloop. cbn.
  destruct (extract_image_representations env processed). eauto.
Qed.

Lemma get_batch_input_returns_witness :
  ∃ out, _get_batch_input demo_env demo_evaluator demo_heap [3%nat; 4%nat] =
           Ok out.
Proof.
  apply (get_batch_input_returns demo_env demo_evaluator demo_heap
           [3%nat; 4%nat]).
  - intros o idn. eexists. reflexivity.
  - intros o a d s. eexists. reflexivity.
  - intros o x anns. eexists _, _. reflexivity.
Defined.

(** X10: when [_get_batch_input] returns, the identifiers it returns are
    those of the annotations, in order; the filled input is one batch
    holding one sample per annotation, each with the identifier, the
    metadata and the number of channels the reader gave it; and the batch
    metadata is what [extract_image_representations] reads off the processed
    batch. *)
Theorem get_batch_input_keeps_samples
    {Obj Ann Ident Data Meta Pred Metric Presenter : Type}
    (env : Collaborators Obj Ann Ident Data Meta Pred Metric Presenter)
    (self : CocosnetEvaluator Ann Pred Metric) (h : heap Obj)
    (batch_annotation annotated : list Ann)
    (filled : list (list (DataRepresentation (list Data) Meta Ident)))
    (batch_meta : list Meta) (batch_identifiers : list Ident)
    (calls : list (process_call Data)) :
  _get_batch_input env self h batch_annotation =
    Ok ((filled, batch_meta, batch_identifiers), annotated, calls) →
  batch_identifiers = annotation_identifier env <$> batch_annotation ∧
  ∃ raw processed,
    mapM (reader_call env (obj_at h (reader self))) batch_identifiers = Ok raw ∧
    filled = [processed] ∧
    length processed = length batch_annotation ∧
    batch_meta = (extract_image_representations env processed).2 ∧
    Forall2 (λ r p, identifier p = identifier r ∧ metadata p = metadata r ∧
                    length (data p) = length (data r)) raw processed.
Proof.
  unfold _get_batch_input.
  intros (raw & Hraw & (annotated' & _ & H)%bind_Ok)%bind_Ok.
  apply bind_Ok in H as ([processed calls'] & Hloop & H).
  destruct (extract_image_representations env processed) as [images meta]
    eqn:Hextract.
  injection H as <- <- <- <- <-. split; [done|].
  apply (process_samples_Ok env self h _ raw []) in Hloop
    as (ps & Hlen & Hproc & _ & Hps).
  cbn in Hproc. subst processed.
  exists raw, ps. split; [exact Hraw|]. split; [done|].
  apply mapM_Ok, Forall2_length in Hraw. rewrite length_fmap in Hraw.
  split; [cbn; lia|]. split; [by rewrite Hextract|].
  apply Forall2_same_length_lookup. split; [done|].
  intros i r p Hr Hp. destruct (Hps i r Hr) as (p' & Hp' & Hm & Hi & Hd & _).
  cbn in Hp. rewrite Hp in Hp'. injection Hp' as <-. done.
Qed.

Lemma get_batch_input_keeps_samples_witness :
  [3%nat] = annotation_identifier demo_env <$> [3%nat] ∧
  ∃ raw processed,
    mapM (reader_call demo_env (obj_at demo_heap (reader demo_evaluator)))
         [3%nat] = Ok raw ∧
    [[{| data := [103; -1; 102]; metadata := (); identifier := 3%nat |}]]
      = [processed] ∧
    length processed = length [3%nat] ∧
    [()] = (extract_image_representations demo_env processed).2 ∧
    Forall2 (λ r p, identifier p = identifier r ∧ metadata p = metadata r ∧
                    length (data p) = length (data r)) raw processed.
Proof.
  apply (get_batch_input_keeps_samples demo_env demo_evaluator demo_heap
           [3%nat] [3%nat] _ [()] [3%nat]
           [ProcessCall 1%nat 0%nat 0%nat 3; ProcessCall 2%nat 0%nat 1%nat 1;
            ProcessCall 1%nat 0%nat 2%nat 2]).
  vm_compute. reflexivity.
Defined.

(** X11: the filled input [_get_batch_input] hands to the model is a list
    with the whole batch as its single element, so [predict] on it returns
    exactly one prediction, however many annotations the batch has. *)
Theorem batch_gives_one_prediction
    {Obj Ann Ident Data Meta Pred Metric Presenter T Prediction : Type}
    (env : Collaborators Obj Ann Ident Data Meta Pred Metric Presenter)
    (self : CocosnetEvaluator Ann Pred Metric) (h : heap Obj)
    (network : CocosnetModel T
                 (list (DataRepresentation (list Data) Meta Ident)) Prediction)
    (batch_annotation annotated : list Ann)
    (filled : list (list (DataRepresentation (list Data) Meta Ident)))
    (batch_meta : list Meta) (batch_identifiers : list Ident)
    (calls : list (process_call Data)) (batch_predictions : list Prediction) :
  _get_batch_input env self h batch_annotation =
    Ok ((filled, batch_meta, batch_identifiers), annotated, calls) →
  predict network filled = Ok batch_predictions →
  length filled = 1%nat ∧ length batch_predictions = 1%nat ∧
  length batch_identifiers = length batch_annotation.
Proof.
  unfold _get_batch_input.
  intros (raw & Hraw & (annotated' & _ & H)%bind_Ok)%bind_Ok.
  apply bind_Ok in H as ([processed calls'] & _ & H).
  destruct (extract_image_representations env processed) as [images meta].
  injection H as <- <- <- <- <-.
  unfold predict. intros (new & -> & Hall%Forall2_length)%predict_loop_Ok.
  cbn in *. rewrite length_fmap. done.
Qed.

Lemma batch_gives_one_prediction_witness :
  length [[{| data := [103; -1; 102]; metadata := (); identifier := 3%nat |};
           {| data := [104; -1; 102]; metadata := (); identifier := 4%nat |}]]
    = 1%nat ∧
  length [NdArray [1; 3; 1; 1] [7; 103; 104]] = 1%nat ∧
  length [3%nat; 4%nat] = length [3%nat; 4%nat].
Proof.
  apply (batch_gives_one_prediction demo_env demo_evaluator demo_heap
           batch_model [3%nat; 4%nat] [3%nat; 4%nat]
           [[{| data := [103; -1; 102]; metadata := (); identifier := 3%nat |};
             {| data := [104; -1; 102]; metadata := (); identifier := 4%nat |}]]
           [(); ()] [3%nat; 4%nat]
           [ProcessCall 1%nat 0%nat 0%nat 3; ProcessCall 2%nat 0%nat 1%nat 1;
            ProcessCall 1%nat 0%nat 2%nat 2; ProcessCall 1%nat 1%nat 0%nat 4;
            ProcessCall 2%nat 1%nat 1%nat 1; ProcessCall 1%nat 1%nat 2%nat 2]
           [NdArray [1; 3; 1; 1] [7; 103; 104]]).
  - vm_compute. reflexivity.
  - vm_compute. reflexivity.
Defined.

(** ** [compute_metrics] *)

Section ComputeMetrics.
Context {Obj Ann Ident Data Meta Pred Metric Presenter : Type}.
Context (env : Collaborators Obj Ann Ident Data Meta Pred Metric Presenter).

Lemma write_loop_Ok (print_results ignore_results_formatting : bool)
    (evaluated : list (Presenter * Metric)) :
  ∀ acc results,
    foldM (λ results '(result_presenter, evaluated_metric),
        let results := results ++ [evaluated_metric] in
        _ ← (if print_results
             then write_result env result_presenter evaluated_metric
                    ignore_results_formatting
             else Ok ());
        Ok results) evaluated acc = Ok results →
    results = acc ++ evaluated.*2.
Proof.
  induction evaluated as [|[presenter metric] evaluated IH];
    intros acc results; cbn [foldM].
  - intros [= <-]. by rewrite app_nil_r.
  - intros (acc' & Hstep & Hrest%IH)%bind_Ok.
    apply bind_Ok in Hstep as (_ & _ & [= <-]).
    rewrite Hrest, <- app_assoc. done.
Qed.

Lemma silent_loop (ignore_results_formatting : bool)
    (evaluated : list (Presenter * Metric)) :
  ∀ acc,
    foldM (λ results '(result_presenter, evaluated_metric),
        let results := results ++ [evaluated_metric] in
        _ ← (if false
             then write_result env result_presenter evaluated_metric
                    ignore_results_formatting
             else Ok ());
        Ok results) evaluated acc = Ok (acc ++ evaluated.*2).
Proof.
  induction evaluated as [|[presenter metric] evaluated IH]; intros acc;
    cbn [foldM].
  - by rewrite app_nil_r.
  - cbn. rewrite IH, <- app_assoc. done.
Qed.

End ComputeMetrics.

(** X12: [compute_metrics] replaces the stored metric results, it does not
    add to them: when it returns, the stored and returned list is exactly the
    evaluated metrics [iterate_metrics] yields for the stored annotations and
    predictions, in order, whatever was stored before; the annotations, the
    predictions and the collaborator references are untouched.  Without
    printing it returns whenever [iterate_metrics] does. *)
Theorem compute_metrics_replaces_results
    {Obj Ann Ident Data Meta Pred Metric Presenter : Type}
    (env : Collaborators Obj Ann Ident Data Meta Pred Metric Presenter)
    (self : CocosnetEvaluator Ann Pred Metric) (h : heap Obj)
    (ignore_results_formatting : bool) :
  (∀ print_results results self',
     compute_metrics env self h print_results ignore_results_formatting =
       Ok (results, self') →
     ∃ evaluated,
       iterate_metrics env (obj_at h (metric_executor self))
         (_annotations self) (_predictions self) = Ok evaluated ∧
       results = evaluated.*2 ∧ _metrics_results self' = evaluated.*2 ∧
       _annotations self' = _annotations self ∧
       _predictions self' = _predictions self ∧
       launcher self' = launcher self ∧ reader self' = reader self ∧
       preprocessor_mask self' = preprocessor_mask self ∧
       preprocessor_image self' = preprocessor_image self ∧
       postprocessor self' = postprocessor self ∧
       dataset self' = dataset self ∧
       metric_executor self' = metric_executor self ∧
       model self' = model self) ∧
  (∀ evaluated,
     iterate_metrics env (obj_at h (metric_executor self))
       (_annotations self) (_predictions self) = Ok evaluated →
     ∃ self',
       compute_metrics env self h false ignore_results_formatting =
         Ok (evaluated.*2, self')).
Proof.
  unfold compute_metrics. split.
  - intros print_results results self' H.
    apply bind_Ok in H as (evaluated & Hiter & H).
    apply bind_Ok in H as (results' & Hloop%write_loop_Ok & [= <- <-]).
    exists evaluated.
    destruct (_metrics_results self) eqn:Hm; cbn in *; subst; rewrite ?Hm; done.
  - intros evaluated Hiter. eexists. apply bind_Ok. exists evaluated. split.
    + destruct (_metrics_results self); exact Hiter.
    + apply bind_Ok. exists (evaluated.*2). split; [|reflexivity].
      destruct (_metrics_results self) eqn:Hm; cbn [_metrics_results];
        rewrite ?Hm;
        apply (silent_loop env ignore_results_formatting evaluated []).
Qed.

Lemma compute_metrics_replaces_results_witness :
  ∃ self',
    compute_metrics demo_env demo_evaluator demo_heap false false =
      Ok (([] : list (unit * Z)).*2, self').
Proof.
  apply (proj2 (compute_metrics_replaces_results demo_env demo_evaluator
                  demo_heap false) []).
  reflexivity.
Defined.

(** ** What [from_configs] constructs *)

(** X14: a dataset entry without a ['reader'] key is read with the
    ['opencv_imread'] reader and no reader configuration. *)
Theorem from_configs_default_reader
    {Obj Ann Ident Data Meta Pred Metric Presenter : Type}
    (env : Collaborators Obj Ann Ident Data Meta Pred Metric Presenter)
    (h : heap Obj)
    (model_config network_info launcher_config dataset_name : pyval)
    (dataset_config : gmap string pyval) (constructed : Obj) :
  py_getitem model_config "network_info" = Ok network_info →
  py_getitem model_config "launchers" ≫= py_getitem0 = Ok launcher_config →
  py_getitem model_config "datasets" ≫= py_getitem0 = Ok (PyDict dataset_config) →
  dataset_config !! "name" = Some dataset_name →
  dataset_config !! "reader" = None →
  Dataset_new env (PyDict dataset_config) = Ok constructed →
  from_configs env h model_config =
  from_configs_finish env (alloc constructed h).2 network_info launcher_config
    (PyDict dataset_config) dataset_name
    (default PyNone (dataset_config !! "data_source"))
    (alloc constructed h).1 (PyStr "opencv_imread") PyNone.
Proof.
  intros Hni Hlc Hdc Hname Hreader Hdataset. unfold from_configs.
  rewrite Hni. cbn. rewrite Hlc. cbn. rewrite Hdc. cbn.
  unfold dict_getitem. rewrite Hname, Hreader. cbn.
  unfold new. rewrite Hdataset. cbn. reflexivity.
Qed.

Lemma from_configs_default_reader_witness :
  let model_config :=
    PyDict {[
      "network_info" := PyDict ∅;
      "launchers" := PyList [PyDict {[ "framework" := PyStr "dlsdk" ]}];
      "datasets" := PyList [PyDict {[ "name" := PyStr "ADE20k" ]}] ]} in
  from_configs demo_env demo_heap model_config =
  from_configs_finish demo_env (alloc 5%nat demo_heap).2 (PyDict ∅)
    (PyDict {[ "framework" := PyStr "dlsdk" ]})
    (PyDict {[ "name" := PyStr "ADE20k" ]}) (PyStr "ADE20k")
    (default PyNone
       (({[ "name" := PyStr "ADE20k" ]} : gmap string pyval) !! "data_source"))
    (alloc 5%nat demo_heap).1 (PyStr "opencv_imread") PyNone.
Proof.
  cbn zeta.
  apply (from_configs_default_reader demo_env demo_heap _ (PyDict ∅)
           (PyDict {[ "framework" := PyStr "dlsdk" ]}) (PyStr "ADE20k")
           {[ "name" := PyStr "ADE20k" ]} 5%nat);
    vm_compute; reflexivity.
Defined.

(** ** [get_processing_info], [release] and the weights path once more *)

(** X15: the outcome of [get_processing_info] on a configuration whose
    ['module_config'] gives ['launchers'] and ['datasets'] as lists: it
    returns exactly when the configuration has a ['name'], the first launcher
    is a mapping with ['framework'] and ['device'] and the first dataset is a
    mapping with a ['name'], and the launcher's ['tags'] are optional, coming
    back as [None] when absent.  A configuration without ['module_config']
    raises [TypeError] ([None] is subscripted), and an empty ['launchers']
    list raises [IndexError]. *)
Theorem get_processing_info_outcomes (d : gmap string pyval) :
  (d !! "module_config" = None →
   get_processing_info (PyDict d) = Raise TypeError) ∧
  (∀ m, d !! "module_config" = Some (PyDict m) →
        m !! "launchers" = Some (PyList []) →
        get_processing_info (PyDict d) = Raise IndexError) ∧
  (∀ m ls ds name framework device tags dataset_name,
     d !! "module_config" = Some (PyDict m) →
     m !! "launchers" = Some (PyList ls) →
     m !! "datasets" = Some (PyList ds) →
     get_processing_info (PyDict d) =
       Ok (name, framework, device, tags, dataset_name) ↔
     ∃ lc launchers dc datasets,
       ls = PyDict lc :: launchers ∧ ds = PyDict dc :: datasets ∧
       d !! "name" = Some name ∧
       lc !! "framework" = Some framework ∧ lc !! "device" = Some device ∧
       tags = default PyNone (lc !! "tags") ∧
       dc !! "name" = Some dataset_name).
Proof.
  unfold get_processing_info, py_get, py_getitem, py_getitem0, dict_getitem,
    list_getitem0.
  split; [|split].
  - intros Hm. cbn. rewrite Hm. reflexivity.
  - intros m Hm Hl. cbn. rewrite Hm. cbn. rewrite Hl. reflexivity.
  - intros m ls ds name framework device tags dataset_name Hm Hl Hd.
    cbn. rewrite Hm. cbn. rewrite Hl, Hd. cbn. split.
    + intros H.
      destruct ls as [|l0 launchers]; [discriminate|].
      destruct ds as [|d0 datasets]; [discriminate|]. cbn in H.
      destruct (d !! "name") as [name'|] eqn:Hn; [|discriminate]. cbn in H.
      destruct l0 as [| | | | |lc]; try discriminate.
      destruct (lc !! "framework") as [framework'|] eqn:Hf; [|discriminate].
      cbn in H.
      destruct (lc !! "device") as [device'|] eqn:Hdev; [|discriminate].
      cbn in H.
      destruct d0 as [| | | | |dc]; try discriminate.
      destruct (dc !! "name") as [dataset_name'|] eqn:Hdn; [|discriminate].
      cbn in H. injection H as <- <- <- <- <-.
      by exists lc, launchers, dc, datasets.
    + intros (lc & launchers & dc & datasets &
              -> & -> & Hn & Hf & Hdev & -> & Hdn).
      cbn. rewrite Hn. cbn. rewrite Hf. cbn. rewrite Hdev. cbn.
      rewrite Hdn. reflexivity.
Qed.

Lemma get_processing_info_outcomes_witness :
  get_processing_info
    (PyDict {[
       "name" := PyStr "cocosnet";
       "module_config" := PyDict {[
         "launchers" := PyList [PyDict {[ "framework" := PyStr "dlsdk";
                                          "device" := PyStr "CPU" ]}];
         "datasets" := PyList [PyDict {[ "name" := PyStr "ADE20k" ]}] ]} ]}) =
    Ok (PyStr "cocosnet", PyStr "dlsdk", PyStr "CPU", PyNone, PyStr "ADE20k") ∧
  get_processing_info (PyDict {[ "name" := PyStr "cocosnet" ]}) =
    Raise TypeError ∧
  get_processing_info
    (PyDict {[
       "name" := PyStr "cocosnet";
       "module_config" := PyDict {[ "launchers" := PyList [] ]} ]}) =
    Raise IndexError.
Proof.
  split; [|split].
  - apply (proj2 (proj2 (get_processing_info_outcomes _))
             {[ "launchers" := PyList [PyDict {[ "framework" := PyStr "dlsdk";
                                                 "device" := PyStr "CPU" ]}];
                "datasets" := PyList [PyDict {[ "name" := PyStr "ADE20k" ]}] ]}
             [PyDict {[ "framework" := PyStr "dlsdk"; "device" := PyStr "CPU" ]}]
             [PyDict {[ "name" := PyStr "ADE20k" ]}]);
      [vm_compute; reflexivity..|].
    exists {[ "framework" := PyStr "dlsdk"; "device" := PyStr "CPU" ]}, [],
      {[ "name" := PyStr "ADE20k" ]}, [].
    repeat split; vm_compute; reflexivity.
  - apply (proj1 (get_processing_info_outcomes _)). vm_compute. reflexivity.
  - apply (proj1 (proj2 (get_processing_info_outcomes _))
             {[ "launchers" := PyList [] ]});
      vm_compute; reflexivity.
Defined.

(** X16: releasing the model is not repeatable.  [CocosnetModel.release]
    succeeds exactly when both networks still hold their executable network,
    and then both have lost it; so a second release, or a release of a model
    that was never loaded, raises [AttributeError]; and when the
    correspondence network has none, the generator's is left in place. *)
Theorem model_release_once {Ec Eg} (correspondence : option Ec)
    (generator : option Eg) :
  ((model_release correspondence generator).2 = Ok () ↔
   is_Some correspondence ∧ is_Some generator) ∧
  ((model_release correspondence generator).2 = Ok () →
   (model_release correspondence generator).1 = (None, None) ∧
   model_release (model_release correspondence generator).1.1
     (model_release correspondence generator).1.2 =
     (None, None, Raise AttributeError)) ∧
  ((model_release correspondence generator).2 ≠ Ok () →
   (model_release correspondence generator).2 = Raise AttributeError) ∧
  (correspondence = None →
   (model_release correspondence generator).1.2 = generator).
Proof.
  destruct correspondence as [c|], generator as [g|]; cbn;
    repeat split; try done;
    try (intros [Hc Hg]; by (destruct Hc || destruct Hg));
    try (intros [? [x Hx]]; discriminate Hx);
    try (intros [[x Hx] ?]; discriminate Hx);
    eauto.
Qed.

Lemma model_release_once_witness :
  (model_release (Some 1%nat) (Some 2%nat)).1 = (None, None) ∧
  model_release (model_release (Some 1%nat) (Some 2%nat)).1.1
    (model_release (Some 1%nat) (Some 2%nat)).1.2 =
    (None, None, Raise AttributeError).
Proof.
  apply (proj1 (proj2 (model_release_once (Some 1%nat) (Some 2%nat)))).
  reflexivity.
Defined.

(** X17: the weights path [automatic_model_search] returns is stable: put
    back into the configuration as its ['weights'] entry - the path library
    accepting it as it is - it is returned unchanged, with the same model
    path. *)
Theorem automatic_model_search_stable
    (str_Path get_path : pyval → result string)
    (d : gmap string pyval) (model weights : string) :
  automatic_model_search str_Path get_path (PyDict d) = Ok (model, weights) →
  get_path (PyStr weights) = Ok weights →
  automatic_model_search str_Path get_path
    (PyDict (<["weights" := PyStr weights]> d)) = Ok (model, weights).
Proof.
  unfold automatic_model_search. cbn. unfold dict_getitem.
  intros H Hpath.
  apply bind_Ok in H as (model' & Hmodel & H).
  apply bind_Ok in H as (resolved & _ & H). injection H as -> Hw.
  rewrite (lookup_insert_ne _ "weights" "model") by done. rewrite Hmodel. cbn.
  rewrite lookup_insert_eq. cbn. rewrite Hpath. cbn. do 2 f_equal.
  assert (weights = py_replace ".xml" ".bin" resolved) as ->.
  { destruct (py_contains ".xml" resolved) eqn:Hc; [done|].
    by rewrite py_replace_no_occurrence. }
  unfold py_replace at 1. by rewrite py_replace_from_no_xml.
Qed.

Lemma automatic_model_search_stable_witness :
  automatic_model_search demo_path demo_path
    (PyDict (<["weights" := PyStr "public/cocosnet/corr.bin"]>
               {[ "model" := PyStr "public/cocosnet/corr.xml" ]})) =
  Ok ("public/cocosnet/corr.xml", "public/cocosnet/corr.bin").
Proof.
  apply (automatic_model_search_stable demo_path demo_path
           {[ "model" := PyStr "public/cocosnet/corr.xml" ]}).
  - vm_compute. reflexivity.
  - reflexivity.
Defined.

(** ** Order under [normalization] *)

Lemma byte_order_ok_all :
  forallb (λ x, forallb (byte_order_ok x) (range 256)) (range 256) = true.
Proof. vm_compute. reflexivity. Qed.

Lemma normalization_lookup (img : ndarray Z) (i : nat) (x : Z) :
  flat img !! i = Some x →
  flat (normalization img 127.5 127.5) !! i =
  Some (PrimFloat.div (PrimFloat.sub (float_of_int x) 127.5) 127.5).
Proof.
  intros Hx. unfold normalization, np_divide, np_subtract. cbn [flat].
  by rewrite !list_lookup_fmap, Hx.
Qed.

(** X18: [normalization] keeps the order of pixel values: wherever a uint8
    image holds a smaller byte at one place than at another, the normalized
    float64 tensor holds a strictly smaller value there; in particular
    distinct bytes are never mapped to the same value. *)
Theorem normalization_strictly_increasing (img : ndarray Z) (i j : nat)
    (x y : Z) (fx fy : float) :
  Forall (λ v, 0 ≤ v ≤ 255) (flat img) →
  flat img !! i = Some x → flat img !! j = Some y →
  flat (normalization img 127.5 127.5) !! i = Some fx →
  flat (normalization img 127.5 127.5) !! j = Some fy →
  x < y → PrimFloat.ltb fx fy = true.
Proof.
  intros Hbytes Hx Hy Hfx Hfy Hlt.
  rewrite (normalization_lookup img i x Hx) in Hfx.
  rewrite (normalization_lookup img j y Hy) in Hfy.
  injection Hfx as <-. injection Hfy as <-.
  pose proof (proj1 (Forall_lookup _ _) Hbytes i x Hx) as Hbx.
  pose proof (proj1 (Forall_lookup _ _) Hbytes j y Hy) as Hby.
  cbn beta in Hbx, Hby.
  pose proof byte_order_ok_all as Hall.
  rewrite forallb_forall in Hall.
  assert (In x (range 256)) as Hinx
    by (apply list_elem_of_In, elem_of_seqZ; lia).
  pose proof (Hall x Hinx) as Hrow. rewrite forallb_forall in Hrow.
  assert (byte_order_ok x y = true) as Hok
    by (apply Hrow, list_elem_of_In, elem_of_seqZ; lia).
  unfold byte_order_ok in Hok.
  by rewrite (proj2 (Z.ltb_lt x y) Hlt) in Hok.
Qed.

Lemma normalization_strictly_increasing_witness :
  PrimFloat.ltb
    (PrimFloat.div (PrimFloat.sub (float_of_int 127) 127.5) 127.5)
    (PrimFloat.div (PrimFloat.sub (float_of_int 128) 127.5) 127.5) = true.
Proof.
  apply (normalization_strictly_increasing (NdArray [1; 1; 2] [127; 128])
           0%nat 1%nat 127 128).
  - cbn [flat]. repeat constructor; lia.
  - reflexivity.
  - reflexivity.
  - reflexivity.
  - reflexivity.
  - lia.
Defined.
